(** * pdf_watcher: a shallow embedding of [src/pdf_watcher.py]

    The handler [PDFHandler] waits until [/images/input.pdf] stops growing,
    converts it to one JPG per page, stores each page as a base64 file, sends
    every page to the OCR service and writes the text, the structured JSON
    and two timing files into the watch directory.

    Conventions of the embedding:
    - a Python [str] is the list of its code points ([pystr]);
    - [bytes] is [list byte];
    - the watch directory is a finite map from entry names to nodes;
    - code that may raise returns a [result]; code that also touches the
      directory lives in the monad [M];
    - the external collaborators (the poll observations of the input file,
      the [convert] subprocess, the OCR client, the clock) are fields of an
      environment record [Env];
    - floating-point numbers (clock readings, confidences) are rationals;
    - the log lines that the source prints are not part of the model. *)

From Stdlib Require Import ZArith QArith Lia List String Ascii.
From Stdlib Require Import Strings.Byte Sorting.Sorted.
From stdpp Require Import gmap list.

Local Open Scope Z_scope.

(* ===================================================================== *)
(** ** Python strings                                                     *)
(* ===================================================================== *)

Definition pystr := list N.

(** An ASCII literal of the source. *)
Definition lit (s : string) : pystr :=
  List.map N_of_ascii (list_ascii_of_string s).

(** [s.startswith(p)] *)
Fixpoint startswith (s p : pystr) : bool :=
  match p, s with
  | [], _ => true
  | _ :: _, [] => false
  | c :: p', d :: s' => (c =? d)%N && startswith s' p'
  end.

(** [s.endswith(p)] *)
Definition endswith (s p : pystr) : bool :=
  startswith (rev s) (rev p).

(** [s.split(sep)] for a one-character separator: the pieces between the
    occurrences of [sep]; never the empty list. *)
Fixpoint split (sep : N) (s : pystr) : list pystr :=
  match s with
  | [] => [[]]
  | c :: s' =>
      if (c =? sep)%N then [] :: split sep s'
      else match split sep s' with
           | [] => [[c]]
           | p :: ps => (c :: p) :: ps
           end
  end.

(** [s.replace(old, new)] for a non-empty [old]: every occurrence, left to
    right, without overlap.  [skip] counts the characters of a match that
    are still to be dropped. *)
Fixpoint replace_from (old new : pystr) (skip : nat) (s : pystr) : pystr :=
  match s with
  | [] => []
  | c :: s' =>
      match skip with
      | S k => replace_from old new k s'
      | O =>
          if startswith s old
          then new ++ replace_from old new (Nat.pred (length old)) s'
          else c :: replace_from old new O s'
      end
  end.

Definition replace (old new s : pystr) : pystr := replace_from old new O s.

(** [str.isspace] on one code point (the table of CPython's
    [_PyUnicode_IsWhitespace]). *)
Definition isspace (c : N) : bool :=
  ((9 <=? c) && (c <=? 13) || (28 <=? c) && (c <=? 32)
   || (c =? 133) || (c =? 160) || (c =? 5760)
   || (8192 <=? c) && (c <=? 8202)
   || (c =? 8232) || (c =? 8233) || (c =? 8239) || (c =? 8287)
   || (c =? 12288))%N.

Fixpoint lstrip (s : pystr) : pystr :=
  match s with
  | [] => []
  | c :: s' => if isspace c then lstrip s' else s
  end.

Definition rstrip (s : pystr) : pystr := rev (lstrip (rev s)).

(** [s.strip()] *)
Definition strip (s : pystr) : pystr := rstrip (lstrip s).

(** [sep.join(parts)] *)
Fixpoint join (sep : pystr) (parts : list pystr) : pystr :=
  match parts with
  | [] => []
  | [p] => p
  | p :: ps => p ++ sep ++ join sep ps
  end.

(** [''.join(parts)] *)
Definition concat_str (parts : list pystr) : pystr := join [] parts.

(** [a <= b] on strings: lexicographic on code points. *)
Fixpoint str_leb (a b : pystr) : bool :=
  match a, b with
  | [], _ => true
  | _ :: _, [] => false
  | c :: a', d :: b' =>
      if (c <? d)%N then true
      else if (d <? c)%N then false
      else str_leb a' b'
  end.

Fixpoint insert_sorted (x : pystr) (l : list pystr) : list pystr :=
  match l with
  | [] => [x]
  | y :: l' => if str_leb x y then x :: l else y :: insert_sorted x l'
  end.

(** [sorted(names)] on a list of strings. *)
Definition sorted (l : list pystr) : list pystr :=
  fold_right insert_sorted [] l.

(** *** [int(s)]

    Surrounding whitespace, an optional sign, then decimal digits in groups
    separated by single underscores; [None] stands for [ValueError].  The
    digits are the decimal digits of any script, as [int] accepts them. *)

(** The code point of the digit zero of every range of decimal digits of
    Unicode 14 (category Nd); the digits one to nine follow each of them. *)
Definition decimal_zeros : list N :=
  [48; 1632; 1776; 1984; 2406; 2534; 2662; 2790; 2918; 3046; 3174; 3302;
   3430; 3558; 3664; 3792; 3872; 4160; 4240; 6112; 6160; 6470; 6608; 6784;
   6800; 6992; 7088; 7232; 7248; 42528; 43216; 43264; 43472; 43504; 43600;
   44016; 65296; 66720; 68912; 69734; 69872; 69942; 70096; 70384; 70736;
   70864; 71248; 71360; 71472; 71904; 72016; 72784; 73040; 73120; 92768;
   92864; 93008; 120782; 120792; 120802; 120812; 120822; 123200; 123632;
   125264; 130032]%N.

(** The value of a decimal digit, [None] for any other character. *)
Definition digit_of (c : N) : option Z :=
  option_map (fun zero => Z.of_N (c - zero))
    (List.find (fun zero => (zero <=? c) && (c <=? zero + 9))%N decimal_zeros).

(** [digits_from acc after_digit s]: the value of [s] continued from [acc];
    [after_digit] tells whether the previous character was a digit (an
    underscore is legal only between two digits). *)
Fixpoint digits_from (acc : Z) (after_digit : bool) (s : pystr) : option Z :=
  match s with
  | [] => if after_digit then Some acc else None
  | c :: s' =>
      if (c =? 95)%N then
        if after_digit then
          match s' with
          | [] => None
          | _ => digits_from acc false s'
          end
        else None
      else
        match digit_of c with
        | Some d => digits_from (10 * acc + d) true s'
        | None => None
        end
  end.

Definition py_int (s : pystr) : option Z :=
  match strip s with
  | [] => None
  | c :: s' =>
      if (c =? 43)%N then digits_from 0 false s'
      else if (c =? 45)%N then option_map Z.opp (digits_from 0 false s')
      else digits_from 0 false (c :: s')
  end.

(* ===================================================================== *)
(** ** Exceptions, results, the watch directory                           *)
(* ===================================================================== *)

Inductive exn :=
| FileNotFoundError
| IsADirectoryError
| OtherOSError
| ValueError
| IndexError
| BinasciiError
| TimeoutExpired
| ServiceException.

Inductive result (A : Type) :=
| Ok (a : A)
| Raise (e : exn).
Arguments Ok {A} a.
Arguments Raise {A} e.

Definition result_bind {A B} (r : result A) (k : A -> result B) : result B :=
  match r with
  | Ok a => k a
  | Raise e => Raise e
  end.

Definition of_option {A} (e : exn) (o : option A) : result A :=
  match o with
  | Some a => Ok a
  | None => Raise e
  end.

(** [l[i]] *)
Definition index {A} (l : list A) (i : nat) : result A :=
  of_option IndexError (l !! i).

(* ===================================================================== *)
(** ** The OCR collaborator's annotation tree (input)                     *)
(* ===================================================================== *)

(** [vision.TextAnnotation.DetectedBreak.BreakType] *)
Inductive BreakType :=
| UNKNOWN | SPACE | SURE_SPACE | EOL_SURE_SPACE | HYPHEN | LINE_BREAK.

(** The integer value of an enum member. *)
Definition break_code (b : BreakType) : Z :=
  match b with
  | UNKNOWN => 0 | SPACE => 1 | SURE_SPACE => 2
  | EOL_SURE_SPACE => 3 | HYPHEN => 4 | LINE_BREAK => 5
  end.

(** [BreakType(code).name] *)
Definition break_name (b : BreakType) : pystr :=
  match b with
  | UNKNOWN => lit "UNKNOWN" | SPACE => lit "SPACE"
  | SURE_SPACE => lit "SURE_SPACE" | EOL_SURE_SPACE => lit "EOL_SURE_SPACE"
  | HYPHEN => lit "HYPHEN" | LINE_BREAK => lit "LINE_BREAK"
  end.

Record Vertex := { vx : Z; vy : Z }.

Record BoundingPoly := { vertices : list Vertex }.

(** [detected_break] is [symbol.property.detected_break.type]; a symbol
    for which the service reports no break reads as [UNKNOWN] (code 0). *)
Record Symbol := {
  symbol_text : pystr;
  symbol_confidence : Q;
  detected_break : BreakType
}.

Record Word := {
  word_symbols : list Symbol;
  word_confidence : Q;
  word_bounding_box : BoundingPoly
}.

Record Paragraph := {
  paragraph_words : list Word;
  paragraph_confidence : Q;
  paragraph_bounding_box : BoundingPoly
}.

Record Block := {
  block_paragraphs : list Paragraph;
  block_confidence : Q;
  block_bounding_box : BoundingPoly
}.

Record Page := { page_blocks : list Block }.

Record TextAnnotation := {
  annotation_text : pystr;
  annotation_pages : list Page
}.

(** [response.error.message] and [response.full_text_annotation]; the
    latter is [None] when the response carries no annotation. *)
Record Response := {
  error_message : pystr;
  full_text_annotation : option TextAnnotation
}.

(** An unset message field reads as the empty message. *)
Definition response_text (r : Response) : pystr :=
  match full_text_annotation r with
  | Some a => annotation_text a
  | None => []
  end.

Definition response_pages (r : Response) : list Page :=
  match full_text_annotation r with
  | Some a => annotation_pages a
  | None => []
  end.

(* ===================================================================== *)
(** ** The structured document (output)                                   *)
(* ===================================================================== *)

Record vertex_data := { vd_x : Z; vd_y : Z }.

Record bounding_box_data := { bb_vertices : list vertex_data }.

(** The dictionary [symbol_data]; the key ['break_type'] is optional. *)
Record symbol_data := {
  sd_text : pystr;
  sd_confidence : Q;
  sd_break_type : option pystr
}.

Record word_data := {
  word_id : nat;
  wd_text : pystr;
  wd_confidence : Q;
  wd_bounding_box : bounding_box_data;
  wd_symbols : list symbol_data
}.

Record para_data := {
  paragraph_id : nat;
  pd_confidence : Q;
  pd_bounding_box : bounding_box_data;
  pd_words : list word_data;
  pd_text : pystr
}.

Record block_data := {
  block_id : nat;
  bd_confidence : Q;
  bd_bounding_box : bounding_box_data;
  bd_paragraphs : list para_data
}.

Record page_data := {
  page_number : Z;
  full_text : pystr;
  blocks : list block_data
}.

(** One entry of [page_timings]. *)
Record page_timing := {
  pt_page : Z;
  pt_file : pystr;
  pt_total_time : Q;
  pt_api_call_time : Q;
  pt_text_length : nat
}.

(** The object dumped to [extraction_timing.json]. *)
Record extraction_timing := {
  et_pages : list page_timing;
  et_total_pages : nat;
  et_start_time : Q;
  et_end_time : Q;
  et_total_duration : Q
}.

(** The object dumped to [processing_timing.json]. *)
Record processing_timing := {
  prt_start_time : Q;
  prt_end_time : Q;
  prt_total_duration_seconds : Q;
  prt_pdf_path : pystr;
  prt_pdf_size_bytes : option Z
}.

(** [_get_bounding_box] *)
Definition _get_bounding_box (b : BoundingPoly) : bounding_box_data :=
  {| bb_vertices := List.map (fun v => {| vd_x := vx v; vd_y := vy v |}) (vertices b) |}.

(** Body of the loop over [word.symbols] (source lines 311-322). *)
Definition build_symbol (s : Symbol) : symbol_data :=
  {| sd_text := symbol_text s;
     sd_confidence := symbol_confidence s;
     sd_break_type :=
       if break_code (detected_break s) =? 0 then None
       else Some (break_name (detected_break s)) |}.

(** [''.join([symbol.text for symbol in word.symbols])] *)
Definition word_text_of (w : Word) : pystr :=
  concat_str (List.map symbol_text (word_symbols w)).

Definition build_word (word_idx : nat) (w : Word) : word_data :=
  {| word_id := word_idx;
     wd_text := word_text_of w;
     wd_confidence := word_confidence w;
     wd_bounding_box := _get_bounding_box (word_bounding_box w);
     wd_symbols := List.map build_symbol (word_symbols w) |}.

(** The loop over [enumerate(paragraph.words)]: [para_text] grows by the
    word's text and one space, [words] by the word's dictionary. *)
Fixpoint words_loop (word_idx : nat) (ws : list Word)
    (para_text : pystr) (words : list word_data) : pystr * list word_data :=
  match ws with
  | [] => (para_text, words)
  | w :: ws' =>
      let word_text := word_text_of w in
      words_loop (S word_idx) ws'
        (para_text ++ word_text ++ lit " ")
        (words ++ [build_word word_idx w])
  end.

Definition build_paragraph (para_idx : nat) (p : Paragraph) : para_data :=
  let '(para_text, words) := words_loop 0 (paragraph_words p) [] [] in
  {| paragraph_id := para_idx;
     pd_confidence := paragraph_confidence p;
     pd_bounding_box := _get_bounding_box (paragraph_bounding_box p);
     pd_words := words;
     pd_text := strip para_text |}.

Definition build_block (block_idx : nat) (b : Block) : block_data :=
  {| block_id := block_idx;
     bd_confidence := block_confidence b;
     bd_bounding_box := _get_bounding_box (block_bounding_box b);
     bd_paragraphs := imap build_paragraph (block_paragraphs b) |}.

(** The blocks of all pages of the annotation go to one list; the block
    index restarts on every page of the annotation. *)
Definition build_blocks (pages : list Page) : list block_data :=
  flat_map (fun page => imap build_block (page_blocks page)) pages.

Definition build_page_data (page_num : Z) (r : Response) : page_data :=
  {| page_number := page_num;
     full_text := response_text r;
     blocks := build_blocks (response_pages r) |}.

(* ===================================================================== *)
(** ** base64 (the standard library's [base64.b64encode] / [b64decode])   *)
(* ===================================================================== *)

Definition b64_alphabet : pystr :=
  lit "ABCDEFGHIJKLMNOPQRSTUVWXYZabcdefghijklmnopqrstuvwxyz0123456789+/".

Definition BASE64_PAD : N := 61.

(** The character of a six-bit value. *)
Definition table_b2a_base64 (v : N) : N :=
  nth (N.to_nat v) b64_alphabet 0%N.

(** The six-bit value of a character, [None] outside the alphabet. *)
Definition table_a2b_base64 (c : N) : option N :=
  (if (65 <=? c) && (c <=? 90) then Some (c - 65)
   else if (97 <=? c) && (c <=? 122) then Some (c - 71)
   else if (48 <=? c) && (c <=? 57) then Some (c + 4)
   else if c =? 43 then Some 62
   else if c =? 47 then Some 63
   else None)%N.

(** A byte from the low eight bits of a number (a store to [unsigned char]). *)
Definition byte_of_N (n : N) : byte :=
  match Byte.of_N (N.land n 255) with
  | Some b => b
  | None => x00
  end.

(** [base64.b64encode(data).decode("utf-8")]: three bytes give four
    characters; one or two trailing bytes are padded with [=]. *)
Fixpoint b64encode (data : list byte) : pystr :=
  match data with
  | [] => []
  | [a] =>
      let x := Byte.to_N a in
      [table_b2a_base64 (N.shiftr x 2);
       table_b2a_base64 (N.shiftl (N.land x 3) 4);
       BASE64_PAD; BASE64_PAD]
  | [a; b] =>
      let x := Byte.to_N a in
      let y := Byte.to_N b in
      [table_b2a_base64 (N.shiftr x 2);
       table_b2a_base64 (N.lor (N.shiftl (N.land x 3) 4) (N.shiftr y 4));
       table_b2a_base64 (N.shiftl (N.land y 15) 2);
       BASE64_PAD]
  | a :: b :: c :: rest =>
      let x := Byte.to_N a in
      let y := Byte.to_N b in
      let z := Byte.to_N c in
      table_b2a_base64 (N.shiftr x 2)
      :: table_b2a_base64 (N.lor (N.shiftl (N.land x 3) 4) (N.shiftr y 4))
      :: table_b2a_base64 (N.lor (N.shiftl (N.land y 15) 2) (N.shiftr z 6))
      :: table_b2a_base64 (N.land z 63)
      :: b64encode rest
  end.

(** [binascii.a2b_base64] without strict mode: characters outside the
    alphabet are skipped; a pad that completes a group of four ends the
    decoding; input that ends inside a group is an error. *)
Fixpoint a2b_base64 (s : pystr) (quad_pos : nat) (leftchar : N) (pads : nat)
    (out : list byte) : result (list byte) :=
  match s with
  | [] => if Nat.eqb quad_pos 0 then Ok out else Raise BinasciiError
  | this_ch :: s' =>
      if (this_ch =? BASE64_PAD)%N then
        if Nat.leb 2 quad_pos && Nat.leb 4 (quad_pos + S pads)
        then Ok out
        else a2b_base64 s' quad_pos leftchar
               (if Nat.leb 2 quad_pos then S pads else pads) out
      else
        match table_a2b_base64 this_ch with
        | None => a2b_base64 s' quad_pos leftchar pads out
        | Some v =>
            match quad_pos with
            | O => a2b_base64 s' 1 v 0 out
            | 1%nat =>
                a2b_base64 s' 2 (N.land v 15) 0
                  (out ++ [byte_of_N (N.lor (N.shiftl leftchar 2) (N.shiftr v 4))])
            | 2%nat =>
                a2b_base64 s' 3 (N.land v 3) 0
                  (out ++ [byte_of_N (N.lor (N.shiftl leftchar 4) (N.shiftr v 2))])
            | _ =>
                a2b_base64 s' 0 0 0
                  (out ++ [byte_of_N (N.lor (N.shiftl leftchar 6) v)])
            end
        end
  end.

(** [base64.b64decode(s)] on a [str]: the string is first encoded as
    ASCII ([ValueError] on any other code point). *)
Definition b64decode (s : pystr) : result (list byte) :=
  if forallb (fun c => (c <? 128)%N) s
  then a2b_base64 s 0 0 0 []
  else Raise ValueError.

(* ===================================================================== *)
(** ** StabilityGate: [is_file_stable]                                    *)
(* ===================================================================== *)

(** One turn of the polling loop as the environment answers it: what
    [os.path.getsize] returned or raised, and the reading of [time.time()]. *)
Record sample := {
  getsize_result : result Z;
  current_time : Q
}.

(** The loop's variables. [stable_start = None] is Python's [None]. *)
Record gate_state := {
  last_size : Z;
  stable_start : option Q
}.

Definition gate_init : gate_state :=
  {| last_size := -1; stable_start := None |}.

(** Truth value of [stable_start]: [None] and [0.0] are false. *)
Definition truthy (t : option Q) : bool :=
  match t with
  | None => false
  | Some q => negb (Qeq_bool q 0)
  end.

(** One iteration: [inl st] continues with the variables [st], [inr r]
    leaves the function. *)
Definition poll (stable_period : Q) (st : gate_state) (s : sample)
  : gate_state + result bool :=
  match getsize_result s with
  | Raise FileNotFoundError => inr (Ok false)
  | Raise e => inr (Raise e)
  | Ok current_size =>
      if current_size =? 0 then inl st
      else if negb (current_size =? last_size st) then
        inl {| last_size := current_size;
               stable_start := Some (current_time s) |}
      else
        match stable_start st with
        | Some t =>
            if truthy (Some t)
               && Qle_bool stable_period (current_time s - t)
            then inr (Ok true)
            else inl st
        | None => inl st
        end
  end.

(** The [while True] loop over the observations that the environment
    supplies; [None]: the loop is still polling when they end. *)
Fixpoint gate_loop (stable_period : Q) (st : gate_state) (obs : list sample)
  : option (result bool) :=
  match obs with
  | [] => None
  | s :: obs' =>
      match poll stable_period st s with
      | inl st' => gate_loop stable_period st' obs'
      | inr r => Some r
      end
  end.

Definition is_file_stable (obs : list sample) (stable_period : Q)
  : option (result bool) :=
  gate_loop stable_period gate_init obs.

(** The default [stable_period=2.0]. *)
Definition default_stable_period : Q := 2.

(* ===================================================================== *)
(** ** The watch directory and the run monad                              *)
(* ===================================================================== *)

(** What a file of the watch directory holds.  A JSON artifact is kept as
    the value that [json.dump] received. *)
Inductive content :=
| Bytes (data : list byte)
| Text (s : pystr)
| StructuredJson (pages : list page_data)
| ExtractionTimingJson (t : extraction_timing)
| ProcessingTimingJson (t : processing_timing).

Inductive node :=
| File (c : content)
| Dir.

(** The entries of [/images], by name. *)
Abbreviation directory := (gmap (list N) node).

(** The places where the source reads [datetime.datetime.now()] and keeps
    the reading in an artifact; the per-page ones carry the file name. *)
Inductive instant :=
| at_start_time
| at_end_time
| at_extraction_start
| at_page_start (b64_file : pystr)
| at_api_call_start (b64_file : pystr)
| at_api_call_end (b64_file : pystr)
| at_page_end (b64_file : pystr)
| at_timing_end_time
| at_timing_total_duration.

(** The collaborators of a run. *)
Record Env := {
  (** the successive polls of [input.pdf] during the stability check *)
  samples : list sample;
  (** [subprocess.run] of the [convert] command: the exit code or the
      exception, and the directory it leaves behind *)
  convert : directory -> result Z * directory;
  (** [vision.ImageAnnotatorClient()] *)
  make_client : result unit;
  (** [client.document_text_detection(image=...)] on the image bytes *)
  document_text_detection : list byte -> result Response;
  (** the clock's reading at each instant, in seconds *)
  clock : instant -> Q;
  (** [st_size] of a directory entry *)
  st_size : node -> Z;
  (** a file read in binary mode that was not stored as bytes *)
  binary_view : content -> result (list byte);
  (** a file read in text mode that was not stored as text *)
  text_view : content -> result pystr
}.

Definition M (A : Type) : Type := directory -> result A * directory.

Definition ret {A} (a : A) : M A := fun fs => (Ok a, fs).

Definition bind {A B} (m : M A) (k : A -> M B) : M B :=
  fun fs =>
    match m fs with
    | (Ok a, fs') => k a fs'
    | (Raise e, fs') => (Raise e, fs')
    end.

Notation "x <- m ;; k" := (bind m (fun x => k))
  (at level 100, m at next level, right associativity).

Definition lift {A} (r : result A) : M A := fun fs => (r, fs).

(** [try: m  except Exception as e: handler e] *)
Definition try_except {A} (m : M A) (handler : exn -> M A) : M A :=
  fun fs =>
    match m fs with
    | (Ok a, fs') => (Ok a, fs')
    | (Raise e, fs') => handler e fs'
    end.

(** [os.listdir(self.watch_dir)] *)
Definition listdir : M (list pystr) :=
  fun fs => (Ok ((map_to_list fs).*1), fs).

(** [os.path.exists(path)] *)
Definition path_exists (name : pystr) : M bool :=
  fun fs => (Ok (bool_decide (is_Some (fs !! name))), fs).

(** [os.stat(path).st_size], [os.path.getsize(path)] *)
Definition getsize (env : Env) (name : pystr) : M Z :=
  fun fs =>
    match fs !! name with
    | None => (Raise FileNotFoundError, fs)
    | Some n => (Ok (st_size env n), fs)
    end.

(** [open(path, "rb").read()] *)
Definition read_bytes (env : Env) (name : pystr) : M (list byte) :=
  fun fs =>
    match fs !! name with
    | None => (Raise FileNotFoundError, fs)
    | Some Dir => (Raise IsADirectoryError, fs)
    | Some (File (Bytes data)) => (Ok data, fs)
    | Some (File c) => (binary_view env c, fs)
    end.

(** [open(path, 'r').read()] *)
Definition read_text (env : Env) (name : pystr) : M pystr :=
  fun fs =>
    match fs !! name with
    | None => (Raise FileNotFoundError, fs)
    | Some Dir => (Raise IsADirectoryError, fs)
    | Some (File (Text s)) => (Ok s, fs)
    | Some (File c) => (text_view env c, fs)
    end.

(** [open(path, 'w')]: the entry is created or emptied; a directory of
    that name makes [open] raise. *)
Definition open_w (name : pystr) : M unit :=
  fun fs =>
    match fs !! name with
    | Some Dir => (Raise IsADirectoryError, fs)
    | _ => (Ok tt, <[name := File (Text [])]> fs)
    end.

(** The write into a file that [open_w] has opened. *)
Definition dump (name : pystr) (c : content) : M unit :=
  fun fs => (Ok tt, <[name := File c]> fs).

(** [with open(path, 'w') as f: f.write(...)] *)
Definition write_file (name : pystr) (c : content) : M unit :=
  _ <- open_w name ;;
  dump name c.

(** The names of the source. *)
Definition input_file : pystr := lit "input.pdf".
Definition processing_timing_json : pystr := lit "processing_timing.json".
Definition extraction_timing_json : pystr := lit "extraction_timing.json".
Definition extracted_text_txt : pystr := lit "extracted_text.txt".
Definition extracted_structured_text_json : pystr :=
  lit "extracted_structured_text.json".

(** [f.startswith('output-') and f.endswith(ext)] *)
Definition is_output (ext : pystr) (f : pystr) : bool :=
  startswith f (lit "output-") && endswith f ext.

(** [sorted([f for f in os.listdir(self.watch_dir) if ...])] *)
Definition list_outputs (ext : pystr) : M (list pystr) :=
  names <- listdir ;;
  ret (sorted (List.filter (is_output ext) names)).

(* ===================================================================== *)
(** ** EncodingStage                                                      *)
(* ===================================================================== *)

(** [jpg_to_base64] *)
Definition jpg_to_base64 (env : Env) (image_path : pystr) : M pystr :=
  data <- read_bytes env image_path ;;
  ret (b64encode data).

(** [jpg_file.replace('.jpg', '.b64')] *)
Definition b64_name (jpg_file : pystr) : pystr :=
  replace (lit ".jpg") (lit ".b64") jpg_file.

(** Body of [for jpg_file in jpg_files] (source lines 158-173). *)
Definition encode_page (env : Env) (jpg_file : pystr) : M unit :=
  file_size <- getsize env jpg_file ;;
  b64_content <- jpg_to_base64 env jpg_file ;;
  write_file (b64_name jpg_file) (Text b64_content).

Fixpoint encode_pages (env : Env) (jpg_files : list pystr) : M unit :=
  match jpg_files with
  | [] => ret tt
  | jpg_file :: rest =>
      _ <- encode_page env jpg_file ;;
      encode_pages env rest
  end.

(* ===================================================================== *)
(** ** RecognitionStage and DocumentAggregator                            *)
(* ===================================================================== *)

(** [int(b64_file.split('-')[1].split('.')[0])] *)
Definition page_number_of (b64_file : pystr) : result Z :=
  result_bind (index (split 45 b64_file) 1) (fun part =>
  result_bind (index (split 46 part) 0) (fun digits =>
  of_option ValueError (py_int digits))).

(** The three lists that the page loop appends to. *)
Record accs := {
  all_text : list pystr;
  all_structured_data : list page_data;
  page_timings : list page_timing
}.

Definition accs_init : accs :=
  {| all_text := []; all_structured_data := []; page_timings := [] |}.

(** Truth value of a string. *)
Definition nonempty (s : pystr) : bool :=
  match s with
  | [] => false
  | _ :: _ => true
  end.

(** Body of [for b64_file in b64_files] (source lines 244-347). *)
Definition ocr_page (env : Env) (b64_file : pystr) (acc : accs) : M accs :=
  let page_start := clock env (at_page_start b64_file) in
  page_num <- lift (page_number_of b64_file) ;;
  b64_content <- read_text env b64_file ;;
  let api_call_start := clock env (at_api_call_start b64_file) in
  image <- lift (b64decode b64_content) ;;
  response <- lift (document_text_detection env image) ;;
  let api_call_end := clock env (at_api_call_end b64_file) in
  let api_call_duration := (api_call_end - api_call_start)%Q in
  if nonempty (error_message response) then ret acc
  else
    let full_text := response_text response in
    let page_data := build_page_data page_num response in
    let page_end := clock env (at_page_end b64_file) in
    let page_duration := (page_end - page_start)%Q in
    let page_timing :=
      {| pt_page := page_num;
         pt_file := b64_file;
         pt_total_time := page_duration;
         pt_api_call_time := api_call_duration;
         pt_text_length := length full_text |} in
    ret {| all_text := all_text acc ++ [full_text];
           all_structured_data := all_structured_data acc ++ [page_data];
           page_timings := page_timings acc ++ [page_timing] |}.

Fixpoint pages_loop (env : Env) (b64_files : list pystr) (acc : accs) : M accs :=
  match b64_files with
  | [] => ret acc
  | b64_file :: rest =>
      acc' <- ocr_page env b64_file acc ;;
      pages_loop env rest acc'
  end.



(** ['\n\n'.join(all_text)] *)
Definition page_separator : pystr := [10; 10]%N.

(** [extract_text_from_b64_images] *)
Definition extract_text_from_b64_images (env : Env) : M unit :=
  let extraction_start := clock env at_extraction_start in
  b64_files <- list_outputs (lit ".b64") ;;
  match b64_files with
  | [] => ret tt
  | _ :: _ =>
      _ <- lift (make_client env) ;;
      acc <- pages_loop env b64_files accs_init ;;
      _ <- open_w extraction_timing_json ;;
      _ <- dump extraction_timing_json
             (ExtractionTimingJson
                {| et_pages := page_timings acc;
                   et_total_pages := length (page_timings acc);
                   et_start_time := extraction_start;
                   et_end_time := clock env at_timing_end_time;
                   et_total_duration :=
                     (clock env at_timing_total_duration - extraction_start)%Q |}) ;;
      _ <- write_file extracted_text_txt
             (Text (join page_separator (all_text acc))) ;;
      write_file extracted_structured_text_json
        (StructuredJson (all_structured_data acc))
  end.

(* ===================================================================== *)
(** ** PipelineOrchestrator: [process_pdf]                                *)
(* ===================================================================== *)

(** Source lines 119-183, the body of the inner [try]. *)
Definition convert_and_extract (env : Env) : M unit :=
  returncode <- convert env ;;
  if returncode =? 124 then ret tt
  else if negb (returncode =? 0) then ret tt
  else
    jpg_files <- list_outputs (lit ".jpg") ;;
    match jpg_files with
    | [] => ret tt
    | _ :: _ =>
        _ <- encode_pages env jpg_files ;;
        extract_text_from_b64_images env
    end.

(** Source lines 75-190, the body of the outer [try], entered with what
    [is_file_stable] returned or raised.  The [pdfinfo] check sits in a
    [try] of its own whose handler only prints. *)
Definition pipeline (env : Env) (gate : result bool) : M unit :=
  stable <- lift gate ;;
  if negb stable then ret tt
  else
    file_size <- getsize env input_file ;;
    try_except (convert_and_extract env) (fun _ => ret tt).

(** The [finally] block, source lines 195-212. *)
Definition save_overall_timing (env : Env) : M unit :=
  let start_time := clock env at_start_time in
  let end_time := clock env at_end_time in
  let total_duration := (end_time - start_time)%Q in
  try_except
    (_ <- open_w processing_timing_json ;;
     present <- path_exists input_file ;;
     pdf_size_bytes <-
       (if present : bool
        then (size <- getsize env input_file ;; ret (Some size))
        else ret None) ;;
     dump processing_timing_json
       (ProcessingTimingJson
          {| prt_start_time := start_time;
             prt_end_time := end_time;
             prt_total_duration_seconds := total_duration;
             prt_pdf_path := lit "/images/input.pdf";
             prt_pdf_size_bytes := pdf_size_bytes |}))
    (fun _ => ret tt).

(** [process_pdf] once [is_file_stable] has left its loop. *)
Definition process_after_gate (env : Env) (gate : result bool) : M unit :=
  _ <- try_except (pipeline env gate) (fun _ => ret tt) ;;
  save_overall_timing env.

(** [process_pdf]: the directory at the end of the run; [None] while the
    stability check is still polling.  [fs] is the watch directory as the
    run finds it when [is_file_stable] returns; what the check saw of
    [input.pdf] before that is in [samples env]. *)
Definition process_pdf (env : Env) (fs : directory) : option directory :=
  match is_file_stable (samples env) default_stable_period with
  | None => None
  | Some gate => Some (snd (process_after_gate env gate fs))
  end.

(* ===================================================================== *)
(** ** Views of the built tree used in the statements                     *)
(* ===================================================================== *)

(** All paragraphs of a built page, in document order. *)
Definition paragraphs_of (p : page_data) : list para_data :=
  flat_map bd_paragraphs (blocks p).

(** All symbols of a built page, in document order. *)
Definition symbols_of (p : page_data) : list symbol_data :=
  flat_map wd_symbols (flat_map pd_words (paragraphs_of p)).

(** All symbols of the annotation that the service returned, in document
    order. *)
Definition response_symbols (r : Response) : list Symbol :=
  flat_map word_symbols
    (flat_map paragraph_words
       (flat_map block_paragraphs
          (flat_map page_blocks (response_pages r)))).

(** The poll found the file empty. *)
Definition found_empty (s : sample) : bool :=
  match getsize_result s with
  | Ok size => size =? 0
  | Raise _ => false
  end.

(** All paragraphs of the annotation that the service returned, in
    document order. *)
Definition response_paragraphs (r : Response) : list Paragraph :=
  flat_map block_paragraphs (flat_map page_blocks (response_pages r)).

(** The texts of the symbols of a word of the annotation, run together. *)
Definition symbols_text (w : Word) : pystr :=
  List.concat (List.map symbol_text (word_symbols w)).

(** A poll that finds the file at the given size. *)
Definition observed (size : Z) (t : Q) : sample :=
  {| getsize_result := Ok size; current_time := t |}.

(** A poll that finds the file gone. *)
Definition vanished (t : Q) : sample :=
  {| getsize_result := Raise FileNotFoundError; current_time := t |}.

(** The file is written, truncated to nothing, and written again. *)
Definition rewritten_samples : list sample :=
  [observed 100 10; observed 0 11; observed 100 12].


(** *** Exhaustive checks for base64

    The facts about the alphabet and about the bit arithmetic of one group
    are checked on all values: 64 six-bit values, 256 bytes, 65536 pairs of
    bytes. *)

Definition below (n : nat) : list N := List.map N.of_nat (seq 0 n).

(** A six-bit value survives the two tables; its character is ASCII and is
    not the pad. *)
Definition sextet_ok (v : N) : bool :=
  let c := table_b2a_base64 v in
  match table_a2b_base64 c with
  | Some u => (u =? v)%N && negb (c =? BASE64_PAD)%N && (c <? 128)%N
  | None => false
  end.

(** First and second character of a group, from its first two bytes. *)
Definition group_head_ok (x y : N) : bool :=
  let s1 := N.shiftr x 2 in
  let s2 := N.lor (N.shiftl (N.land x 3) 4) (N.shiftr y 4) in
  let s2' := N.shiftl (N.land x 3) 4 in
  ((s1 <? 64) && (s2 <? 64) && (s2' <? 64)
   && (N.land (N.lor (N.shiftl s1 2) (N.shiftr s2 4)) 255 =? x)
   && (N.land (N.lor (N.shiftl s1 2) (N.shiftr s2' 4)) 255 =? x)
   && (N.land s2 15 =? N.shiftr y 4))%N.

(** Third and fourth character of a group, from its last two bytes. *)
Definition group_tail_ok (y z : N) : bool :=
  let s3 := N.lor (N.shiftl (N.land y 15) 2) (N.shiftr z 6) in
  let s3' := N.shiftl (N.land y 15) 2 in
  let s4 := N.land z 63 in
  ((s3 <? 64) && (s3' <? 64) && (s4 <? 64)
   && (N.land (N.lor (N.shiftl (N.shiftr y 4) 4) (N.shiftr s3 2)) 255 =? y)
   && (N.land (N.lor (N.shiftl (N.shiftr y 4) 4) (N.shiftr s3' 2)) 255 =? y)
   && (N.land (N.lor (N.shiftl (N.land s3 3) 6) s4) 255 =? z))%N.

(** *** The exception-free reading of one payload

    What the page loop learns about a payload file before it looks at the
    response: the page number parsed from the name, and the response of the
    service to the decoded payload; [Raise] when one of the steps raises. *)
Definition recognise (env : Env) (fs : directory) (b64_file : pystr)
  : result (Z * Response) :=
  result_bind (page_number_of b64_file) (fun page_num =>
  result_bind (fst (read_text env b64_file fs)) (fun b64_content =>
  result_bind (b64decode b64_content) (fun image =>
  result_bind (document_text_detection env image) (fun response =>
  Ok (page_num, response))))).

(** The service reported no error for the page. *)
Definition succeeded (page : pystr * (Z * Response)) : bool :=
  negb (nonempty (error_message (snd (snd page)))).

(** The timing entry that the loop records for a successful page. *)
Definition timing_of (env : Env) (page : pystr * (Z * Response)) : page_timing :=
  let '(b64_file, (page_num, response)) := page in
  {| pt_page := page_num;
     pt_file := b64_file;
     pt_total_time :=
       (clock env (at_page_end b64_file) - clock env (at_page_start b64_file))%Q;
     pt_api_call_time :=
       (clock env (at_api_call_end b64_file)
        - clock env (at_api_call_start b64_file))%Q;
     pt_text_length := length (response_text response) |}.

(** The page entry that the loop records for a successful page. *)
Definition entry_of (page : pystr * (Z * Response)) : page_data :=
  build_page_data (fst (snd page)) (snd (snd page)).

(** The text that a successful page contributes. *)
Definition text_of (page : pystr * (Z * Response)) : pystr :=
  response_text (snd (snd page)).

(* ===================================================================== *)
(** ** Example runs                                                       *)
(* ===================================================================== *)

Definition bytes_of (s : string) : list byte := list_byte_of_string s.

(** A service that answers by the content of the image: an error for
    ["unreadable"], no annotation for ["blank"], and otherwise an annotation
    whose text spells the image bytes. *)
Definition example_service (image : list byte) : result Response :=
  let code := List.map Byte.to_N image in
  if bool_decide (code = lit "unreadable") then
    Ok {| error_message := lit "Bad image data"; full_text_annotation := None |}
  else if bool_decide (code = lit "blank") then
    Ok {| error_message := []; full_text_annotation := None |}
  else
    Ok {| error_message := [];
          full_text_annotation :=
            Some {| annotation_text := code; annotation_pages := [] |} |}.

Definition example_clock (i : instant) : Q :=
  match i with
  | at_start_time => 0
  | at_extraction_start => 5
  | at_page_start _ => 6
  | at_api_call_start _ => 7
  | at_api_call_end _ => 9
  | at_page_end _ => 10
  | at_timing_end_time => 15
  | at_timing_total_duration => 15
  | at_end_time => 20
  end.

Definition example_size (n : node) : Z :=
  match n with
  | File (Bytes data) => Z.of_nat (length data)
  | File (Text s) => Z.of_nat (length s)
  | _ => 4096
  end.

Definition example_env (obs : list sample)
    (conv : directory -> result Z * directory) : Env :=
  {| samples := obs;
     convert := conv;
     make_client := Ok tt;
     document_text_detection := example_service;
     clock := example_clock;
     st_size := example_size;
     binary_view := fun _ => Raise OtherOSError;
     text_view := fun _ => Raise ValueError |}.

(** The payload file of an image. *)
Definition payload (image : string) : node :=
  File (Text (b64encode (bytes_of image))).

Definition image (content : string) : node := File (Bytes (bytes_of content)).

(** A conversion that changes nothing. *)
Definition no_conversion (fs : directory) : result Z * directory := (Ok 0, fs).

(** Three payloads; the service rejects the second. *)
Definition three_payloads : directory :=
  <[lit "output-1.b64" := payload "first"]>
    (<[lit "output-2.b64" := payload "unreadable"]>
       (<[lit "output-3.b64" := payload "third"]> ∅)).


(** Payloads of pages 2 and 10. *)
Definition mixed_width_payloads : directory :=
  <[lit "output-2.b64" := payload "two"]>
    (<[lit "output-10.b64" := payload "ten"]> ∅).

(** The input file is polled once and is gone at the second poll. *)
Definition vanishing_env : Env :=
  example_env [observed 100 10; vanished 11] no_conversion.

(** The file is stable after two seconds. *)
Definition stable_samples : list sample :=
  [observed 100 10; observed 100 11; observed 100 12].

(** The watch directory holds the input and a directory in the place of
    the second page's payload; the conversion produces three pages. *)
Definition blocked_payload_dir : directory :=
  <[lit "input.pdf" := image "%PDF-1.4"]> (<[lit "output-1.b64" := Dir]> ∅).

Definition three_page_conversion (fs : directory) : result Z * directory :=
  (Ok 0,
   <[lit "output-0.jpg" := image "first"]>
     (<[lit "output-1.jpg" := image "second"]>
        (<[lit "output-2.jpg" := image "third"]> fs))).

Definition blocked_payload_env : Env :=
  example_env stable_samples three_page_conversion.

(** The directory after the conversion, and after the first page has been
    encoded. *)
Definition converted_dir : directory :=
  snd (three_page_conversion blocked_payload_dir).

Definition first_page_encoded_dir : directory :=
  <[lit "output-0.b64" := payload "first"]> converted_dir.

(* ===================================================================== *)
(** ** Further views and the event handler                                *)
(* ===================================================================== *)

(** A poll that does not disturb a file of size [n]: it finds the file at
    size [n], or finds it empty (and is skipped by the loop). *)
Definition quiet (n : Z) (s : sample) : Prop :=
  getsize_result s = Ok n \/ getsize_result s = Ok 0.

(** An ASCII decimal digit. *)
Definition is_digit (c : N) : bool := ((48 <=? c) && (c <=? 57))%N.

(** The number that a string of decimal digits writes. *)
Definition decimal_value (digits : pystr) : Z :=
  fold_left (fun acc c => 10 * acc + (Z.of_N c - 48)) digits 0.

(** The name that the pattern [output-%d.jpg] of the [convert] command
    gives to the page whose index is written [digits]. *)
Definition output_jpg (digits : pystr) : pystr :=
  lit "output-" ++ digits ++ lit ".jpg".

(** The last [k] characters of ['.jpg'], for [k] up to 3. *)
Definition jpg_tail (k : nat) : pystr :=
  match k with
  | O => []
  | 1%nat => [103]%N
  | 2%nat => [112; 103]%N
  | _ => [106; 112; 103]%N
  end.

(** *** The event handler (source lines 31-39) *)

(** [os.path.join(a, b)] for two components. *)
Definition path_join (a b : pystr) : pystr :=
  if startswith b (lit "/") then b
  else if negb (nonempty a) || endswith a (lit "/") then a ++ b
  else a ++ lit "/" ++ b.

Definition watch_dir : pystr := lit "/images".

(** [self.input_file] as [__init__] computes it. *)
Definition input_path : pystr := path_join watch_dir (lit "input.pdf").

(** A file-system event of the watch library. *)
Record event := {
  is_directory : bool;
  src_path : pystr
}.

(** [on_created]: the run is started for a file created at the input
    path, and for nothing else. *)
Definition on_created (env : Env) (ev : event) (fs : directory)
  : option directory :=
  if negb (is_directory ev) && bool_decide (src_path ev = input_path)
  then process_pdf env fs
  else Some fs.

(** The four artifacts that the run writes under fixed names. *)
Definition artifact_names : list pystr :=
  [processing_timing_json; extraction_timing_json; extracted_text_txt;
   extracted_structured_text_json].

(** A service that cannot be reached. *)
Definition failing_service (image : list byte) : result Response :=
  Raise ServiceException.

Definition unreachable_service_env : Env :=
  {| samples := stable_samples;
     convert := no_conversion;
     make_client := Ok tt;
     document_text_detection := failing_service;
     clock := example_clock;
     st_size := example_size;
     binary_view := fun _ => Raise OtherOSError;
     text_view := fun _ => Raise ValueError |}.

(** A conversion that times out, and one that produces nothing. *)
Definition timed_out_conversion (fs : directory) : result Z * directory :=
  (Ok 124, fs).

Definition input_only_dir : directory :=
  <[lit "input.pdf" := image "%PDF-1.4"]> ∅.

(** A successful conversion of a two-page document. *)
Definition two_page_conversion (fs : directory) : result Z * directory :=
  (Ok 0,
   <[lit "output-0.jpg" := image "first"]>
     (<[lit "output-1.jpg" := image "second"]> fs)).

Definition two_page_env : Env := example_env stable_samples two_page_conversion.
(* ===================================================================== *)
(** * Properties                                                          *)
(* ===================================================================== *)

(* ===================================================================== *)
(** ** StabilityGate                                                      *)
(* ===================================================================== *)

Lemma poll_zero period st s :
  getsize_result s = Ok 0 -> poll period st s = inl st.
Proof. intros H. unfold poll. now rewrite H. Qed.

Lemma gate_loop_app_polling period obs :
  forall st,
    gate_loop period st obs = None ->
    exists st', forall more, gate_loop period st (obs ++ more) = gate_loop period st' more.
Proof.
  induction obs as [|s obs IH]; intros st H; simpl in *.
  - now exists st.
  - destruct (poll period st s) as [st1|r]; [|discriminate].
    destruct (IH st1 H) as [st' Hst']. now exists st'.
Qed.

Lemma gate_loop_zeros period zs :
  Forall (fun s => getsize_result s = Ok 0) zs ->
  forall st, gate_loop period st zs = None.
Proof.
  induction 1 as [|s zs Hs _ IH]; intros st; simpl; [reflexivity|].
  now rewrite (poll_zero _ _ _ Hs).
Qed.

(** The loop does not see the polls that found the file empty: its
    verdict is the verdict on the other polls alone. *)
Lemma zero_samples_are_ignored period obs :
  forall st,
    gate_loop period st obs =
      gate_loop period st (List.filter (fun s => negb (found_empty s)) obs).
Proof.
  induction obs as [|s obs IH]; intros st; simpl; [reflexivity|].
  unfold found_empty at 1.
  destruct (getsize_result s) as [size|e] eqn:Hs.
  - destruct (size =? 0) eqn:Hz; simpl.
    + apply Z.eqb_eq in Hz. subst size. rewrite (poll_zero _ _ _ Hs). apply IH.
    + destruct (poll period st s); [apply IH | reflexivity].
  - simpl. destruct (poll period st s); [apply IH | reflexivity].
Qed.

(** C7. A poll that finds the file at size zero never ends the stability
    check: if [is_file_stable] is still polling after the observations
    [pre], it is still polling after any number of further observations of
    size zero, so it returns [True] only at an observation of non-zero size
    and never for a file that stays empty. *)
Theorem zero_size_never_stable (period : Q) (pre zs : list sample)
    (Hpre : is_file_stable pre period = None)
    (Hzs : Forall (fun s => getsize_result s = Ok 0) zs) :
  is_file_stable (pre ++ zs) period = None.
Proof.
  unfold is_file_stable in *.
  destruct (gate_loop_app_polling period pre gate_init Hpre) as [st' Hst'].
  rewrite Hst'. now apply gate_loop_zeros.
Qed.

Lemma zero_size_never_stable_witness :
  is_file_stable ([observed 100 10] ++ [observed 0 11; observed 0 12; observed 0 13; observed 0 14])
    default_stable_period = None.
Proof.
  apply zero_size_never_stable.
  - reflexivity.
  - repeat constructor.
Defined.

(** C6 (what the code does on the failing input).  The observation of size
    zero leaves [last_size] and [stable_start] as they were, so the file is
    declared stable at the first non-zero observation after it: the period
    is counted from the reading taken before the file was emptied. *)
Theorem zero_sample_keeps_stable_start :
  poll default_stable_period
       {| last_size := 100; stable_start := Some 10%Q |} (observed 0 11)
    = inl {| last_size := 100; stable_start := Some 10%Q |}
  /\ is_file_stable rewritten_samples default_stable_period = Some (Ok true).
Proof. split; reflexivity. Qed.

(* ===================================================================== *)
(** ** RecognitionStage: the built tree                                   *)
(* ===================================================================== *)

Section ListFacts.
Context {A B C : Type}.

Lemma flat_map_imap (f : nat -> A -> B) (g : B -> list C) (h : A -> list C) :
  (forall i a, g (f i a) = h a) ->
  forall l, flat_map g (imap f l) = flat_map h l.
Proof.
  intros Hgf l. revert f Hgf.
  induction l as [|a l IH]; intros f Hgf; simpl; [reflexivity|].
  rewrite Hgf. f_equal. apply IH. intros i a'. apply Hgf.
Qed.

Lemma flat_map_flat_map (f : A -> list B) (g : B -> list C) (l : list A) :
  flat_map g (flat_map f l) = flat_map (fun a => flat_map g (f a)) l.
Proof.
  induction l as [|a l IH]; simpl; [reflexivity|].
  now rewrite flat_map_app, IH.
Qed.

Lemma flat_map_map_out (f : B -> C) (k : A -> list B) (l : list A) :
  flat_map (fun a => List.map f (k a)) l = List.map f (flat_map k l).
Proof.
  induction l as [|a l IH]; simpl; [reflexivity|].
  now rewrite List.map_app, IH.
Qed.
End ListFacts.

Lemma words_loop_spec ws :
  forall word_idx para_text words,
    words_loop word_idx ws para_text words =
      (para_text ++ flat_map (fun w => word_text_of w ++ lit " ") ws,
       words ++ imap (fun k => build_word (word_idx + k)) ws).
Proof.
  induction ws as [|w ws IH]; intros word_idx para_text words; simpl.
  - now rewrite !app_nil_r.
  - rewrite IH. rewrite <- !app_assoc. simpl.
    rewrite Nat.add_0_r. do 3 f_equal.
    apply imap_ext. intros i w' _. simpl. f_equal. lia.
Qed.

Lemma build_paragraph_words para_idx p :
  pd_words (build_paragraph para_idx p) = imap build_word (paragraph_words p).
Proof.
  unfold build_paragraph. rewrite words_loop_spec. simpl.
  apply imap_ext. now intros.
Qed.

Lemma build_paragraph_text para_idx p :
  pd_text (build_paragraph para_idx p) =
    strip (flat_map (fun w => word_text_of w ++ lit " ") (paragraph_words p)).
Proof. unfold build_paragraph. now rewrite words_loop_spec. Qed.

Lemma imap_build_word_texts ws :
  forall f, (forall i w, wd_text (f i w) = word_text_of w) ->
  List.map wd_text (imap f ws) = List.map word_text_of ws.
Proof.
  induction ws as [|w ws IH]; intros f Hf; simpl; [reflexivity|].
  rewrite Hf. f_equal. apply IH. intros i w'. apply Hf.
Qed.

Lemma symbols_of_build page_num r :
  symbols_of (build_page_data page_num r) =
    List.map build_symbol (response_symbols r).
Proof.
  unfold symbols_of, paragraphs_of, response_symbols, build_page_data,
    build_blocks; simpl.
  rewrite <- flat_map_map_out.
  rewrite !flat_map_flat_map.
  apply flat_map_ext. intros page.
  rewrite (flat_map_imap build_block _
             (fun b => flat_map wd_symbols
                         (flat_map pd_words (imap build_paragraph (block_paragraphs b)))))
    by (intros; now rewrite <- flat_map_flat_map).
  apply flat_map_ext. intros b.
  rewrite (flat_map_imap build_paragraph pd_words
             (fun p => imap build_word (paragraph_words p)))
    by (intros; apply build_paragraph_words).
  rewrite !flat_map_flat_map.
  apply flat_map_ext. intros p.
  rewrite (flat_map_imap build_word wd_symbols
             (fun w => List.map build_symbol (word_symbols w)))
    by reflexivity.
  reflexivity.
Qed.

Lemma build_symbol_tag s :
  sd_text (build_symbol s) = symbol_text s
  /\ (is_Some (sd_break_type (build_symbol s)) <-> break_code (detected_break s) <> 0)
  /\ (forall tag, sd_break_type (build_symbol s) = Some tag ->
        tag = break_name (detected_break s) /\ tag <> break_name UNKNOWN).
Proof.
  unfold build_symbol; simpl. split; [reflexivity|].
  destruct (detected_break s); simpl; split;
    solve [ split; [intros [? ?]; discriminate | congruence]
          | split; [discriminate | eauto]
          | intros tag Htag; inversion Htag; subst; split; [reflexivity|discriminate]
          | intros tag Htag; discriminate ].
Qed.

(** C8. The symbols of a built page are the symbols of the annotation in
    the same order, and a built symbol carries a [break_type] tag exactly
    when the service reported a break (code other than 0) for it; the tag
    is then the name of that break, never the name of the no-break code. *)
Theorem break_type_tag_iff_break (page_num : Z) (r : Response) :
  Forall2
    (fun s sd =>
       sd_text sd = symbol_text s
       /\ (is_Some (sd_break_type sd) <-> break_code (detected_break s) <> 0)
       /\ (forall tag, sd_break_type sd = Some tag ->
             tag = break_name (detected_break s) /\ tag <> break_name UNKNOWN))
    (response_symbols r)
    (symbols_of (build_page_data page_num r)).
Proof.
  rewrite symbols_of_build.
  induction (response_symbols r) as [|s l IH]; simpl; constructor; auto.
  apply build_symbol_tag.
Qed.

Lemma concat_str_concat (parts : list pystr) :
  concat_str parts = List.concat parts.
Proof.
  unfold concat_str.
  induction parts as [|p [|q ps] IH]; simpl in *.
  - reflexivity.
  - now rewrite app_nil_r.
  - now rewrite IH.
Qed.

Lemma join_trailing_sep (sep : pystr) (parts : list pystr) :
  parts <> [] ->
  flat_map (fun p => p ++ sep) parts = join sep parts ++ sep.
Proof.
  induction parts as [|p [|q ps] IH]; intros Hne; [congruence| |].
  - simpl. now rewrite app_nil_r.
  - change (flat_map (fun p => p ++ sep) (p :: q :: ps))
      with ((p ++ sep) ++ flat_map (fun p => p ++ sep) (q :: ps)).
    rewrite IH by discriminate.
    change (join sep (p :: q :: ps)) with (p ++ sep ++ join sep (q :: ps)).
    now rewrite <- !app_assoc.
Qed.

Lemma lstrip_snoc_space (s : pystr) :
  lstrip (s ++ [32%N]) =
    match lstrip s with
    | [] => []
    | t => t ++ [32%N]
    end.
Proof.
  induction s as [|c s IH]; simpl; [reflexivity|].
  destruct (isspace c); [exact IH | reflexivity].
Qed.

Lemma rstrip_snoc_space (s : pystr) : rstrip (s ++ [32%N]) = rstrip s.
Proof. unfold rstrip. now rewrite rev_unit. Qed.

Lemma strip_snoc_space (s : pystr) : strip (s ++ [32%N]) = strip s.
Proof.
  unfold strip. rewrite lstrip_snoc_space.
  destruct (lstrip s) as [|c t]; [reflexivity|].
  apply rstrip_snoc_space.
Qed.

Lemma build_word_symbol_texts word_idx w :
  wd_text (build_word word_idx w) =
    List.concat (List.map sd_text (wd_symbols (build_word word_idx w))).
Proof.
  simpl. unfold word_text_of. rewrite concat_str_concat.
  now rewrite List.map_map.
Qed.

Lemma build_paragraph_reconstructible para_idx p :
  let pd := build_paragraph para_idx p in
  pd_text pd = strip (join (lit " ") (List.map wd_text (pd_words pd)))
  /\ Forall (fun wd => wd_text wd = List.concat (List.map sd_text (wd_symbols wd)))
       (pd_words pd).
Proof.
  simpl. rewrite build_paragraph_text, build_paragraph_words. split.
  - rewrite (imap_build_word_texts _ build_word) by reflexivity.
    destruct (paragraph_words p) as [|w ws] eqn:Hws; [reflexivity|].
    rewrite <- (strip_snoc_space (join _ _)).
    change [32%N] with (lit " ").
    rewrite <- join_trailing_sep by discriminate.
    f_equal. clear Hws. generalize (w :: ws). intros l.
    induction l as [|w' l IH]; simpl; [reflexivity|]. now rewrite IH.
  - apply Forall_forall. intros wd Hwd.
    apply elem_of_lookup_imap_1 in Hwd.
    destruct Hwd as (i & w & -> & _). apply build_word_symbol_texts.
Qed.

Lemma Forall2_imap {A B} (R : A -> B -> Prop) (l : list A) :
  forall f : nat -> A -> B,
    (forall i a, R a (f i a)) -> Forall2 R l (imap f l).
Proof.
  induction l as [|a l IH]; intros f Hf; simpl; constructor.
  - apply Hf.
  - apply IH. intros i a'. apply Hf.
Qed.

Lemma Forall2_flat_map_both {A B C} (R : B -> C -> Prop)
    (g : A -> list B) (h : A -> list C) (l : list A) :
  (forall a, Forall2 R (g a) (h a)) ->
  Forall2 R (flat_map g l) (flat_map h l).
Proof.
  intros Hgh. induction l as [|a l IH]; simpl; [constructor|].
  apply Forall2_app; [apply Hgh | exact IH].
Qed.

(** The paragraphs of a built page, from the annotation. *)
Lemma paragraphs_of_build page_num r :
  paragraphs_of (build_page_data page_num r) =
    flat_map
      (fun page =>
         flat_map (fun b => imap build_paragraph (block_paragraphs b))
           (page_blocks page))
      (response_pages r).
Proof.
  unfold paragraphs_of, build_page_data, build_blocks. cbn [blocks].
  rewrite flat_map_flat_map. apply flat_map_ext. intros page.
  now apply flat_map_imap.
Qed.

(** What [build_paragraph] makes of a paragraph of the annotation. *)
Lemma build_paragraph_from_annotation para_idx p :
  let pd := build_paragraph para_idx p in
  pd_text pd = strip (join (lit " ") (List.map symbols_text (paragraph_words p)))
  /\ Forall2
       (fun w wd =>
          wd_text wd = symbols_text w
          /\ List.map sd_text (wd_symbols wd)
             = List.map symbol_text (word_symbols w))
       (paragraph_words p) (pd_words pd).
Proof.
  cbv zeta.
  destruct (build_paragraph_reconstructible para_idx p) as [Htext _].
  cbv zeta in Htext. rewrite Htext, build_paragraph_words. split.
  - rewrite (imap_build_word_texts _ build_word) by reflexivity.
    do 2 f_equal. apply List.map_ext. intros w.
    unfold word_text_of, symbols_text. apply concat_str_concat.
  - apply Forall2_imap. intros i w. split.
    + cbn [build_word wd_text]. unfold word_text_of, symbols_text.
      apply concat_str_concat.
    + cbn [build_word wd_symbols]. now rewrite List.map_map.
Qed.

(** C5. The paragraphs of a built page are the paragraphs of the
    annotation in the same order, and so are the words of each paragraph.
    Each built word's text is the concatenation, in order and without
    separator, of the texts of the symbols of its word in the annotation
    (which are also the texts of its own built symbols); each built
    paragraph's text is the texts of the words of its paragraph in the
    annotation (equally, of its own built words) joined by one space and
    then stripped. *)
Theorem text_reconstructible (page_num : Z) (r : Response) :
  Forall2
    (fun p pd =>
       pd_text pd
       = strip (join (lit " ") (List.map symbols_text (paragraph_words p)))
       /\ Forall2
            (fun w wd =>
               wd_text wd = symbols_text w
               /\ List.map sd_text (wd_symbols wd)
                  = List.map symbol_text (word_symbols w))
            (paragraph_words p) (pd_words pd)
       /\ pd_text pd = strip (join (lit " ") (List.map wd_text (pd_words pd)))
       /\ Forall
            (fun wd => wd_text wd = List.concat (List.map sd_text (wd_symbols wd)))
            (pd_words pd))
    (response_paragraphs r)
    (paragraphs_of (build_page_data page_num r)).
Proof.
  rewrite paragraphs_of_build. unfold response_paragraphs.
  rewrite flat_map_flat_map.
  apply Forall2_flat_map_both. intros page.
  apply Forall2_flat_map_both. intros b.
  apply Forall2_imap. intros i p.
  destruct (build_paragraph_from_annotation i p) as [Htext Hwords].
  destruct (build_paragraph_reconstructible i p) as [Hown Hsymbols].
  cbv zeta in Htext, Hwords, Hown, Hsymbols. auto.
Qed.

(* ===================================================================== *)
(** ** [sorted] on file names                                             *)
(* ===================================================================== *)

Lemma str_leb_total (a b : pystr) : str_leb a b = false -> str_leb b a = true.
Proof.
  revert b. induction a as [|c a IH]; intros [|d b]; simpl; try discriminate;
    try reflexivity.
  destruct (c <? d)%N eqn:Hcd; [discriminate|].
  destruct (d <? c)%N eqn:Hdc; [reflexivity|].
  apply IH.
Qed.

Lemma insert_sorted_Sorted (x : pystr) (l : list pystr) :
  Sorted (fun a b => str_leb a b = true) l ->
  Sorted (fun a b => str_leb a b = true) (insert_sorted x l).
Proof.
  induction 1 as [|y l Hl IH Hhd]; simpl.
  - repeat constructor.
  - destruct (str_leb x y) eqn:Hxy.
    + repeat constructor; assumption.
    + constructor; [exact IH|].
      destruct l as [|z l]; simpl.
      * constructor. now apply str_leb_total.
      * destruct (str_leb x z); constructor.
        -- now apply str_leb_total.
        -- now inversion Hhd.
Qed.

(** The result of [sorted] is ordered by the order of strings. *)
Lemma sorted_Sorted (l : list pystr) :
  Sorted (fun a b => str_leb a b = true) (sorted l).
Proof.
  unfold sorted. induction l as [|x l IH]; simpl; [constructor|].
  now apply insert_sorted_Sorted.
Qed.

(** In the order of strings, the name of page 10 precedes the name of
    page 2, for the images and for the payloads. *)
Lemma page_10_sorts_before_page_2 :
  sorted [lit "output-2.jpg"; lit "output-10.jpg"]
    = [lit "output-10.jpg"; lit "output-2.jpg"]
  /\ sorted [lit "output-2.b64"; lit "output-10.b64"]
       = [lit "output-10.b64"; lit "output-2.b64"].
Proof. split; reflexivity. Qed.

(* ===================================================================== *)
(** ** EncodingStage: base64 round trip                                   *)
(* ===================================================================== *)

Lemma below_forallb (n : nat) (f : N -> bool) :
  forallb f (below n) = true ->
  forall v, (v < N.of_nat n)%N -> f v = true.
Proof.
  intros Hall v Hv. rewrite forallb_forall in Hall. apply Hall.
  unfold below. rewrite <- (N2Nat.id v). apply in_map, in_seq. lia.
Qed.

Lemma sextets_ok v : (v < 64)%N -> sextet_ok v = true.
Proof. apply (below_forallb 64). vm_compute. reflexivity. Qed.

Lemma group_heads_ok x y :
  (x < 256)%N -> (y < 256)%N -> group_head_ok x y = true.
Proof.
  intros Hx Hy. revert y Hy. apply (below_forallb 256).
  revert x Hx. apply (below_forallb 256 (fun x => forallb (group_head_ok x) (below 256))).
  vm_compute. reflexivity.
Qed.

Lemma group_tails_ok y z :
  (y < 256)%N -> (z < 256)%N -> group_tail_ok y z = true.
Proof.
  intros Hy Hz. revert z Hz. apply (below_forallb 256).
  revert y Hy. apply (below_forallb 256 (fun y => forallb (group_tail_ok y) (below 256))).
  vm_compute. reflexivity.
Qed.

Lemma to_N_below (a : byte) : (Byte.to_N a < 256)%N.
Proof. pose proof (Byte.to_N_bounded a). lia. Qed.

Lemma byte_of_N_eq (n : N) (a : byte) :
  N.land n 255 = Byte.to_N a -> byte_of_N n = a.
Proof. intros H. unfold byte_of_N. now rewrite H, Byte.of_to_N. Qed.

(** One alphabet character read by the decoder. *)
Lemma a2b_base64_char v s quad_pos leftchar pads out :
  (v < 64)%N ->
  a2b_base64 (table_b2a_base64 v :: s) quad_pos leftchar pads out =
    match quad_pos with
    | O => a2b_base64 s 1 v 0 out
    | 1%nat =>
        a2b_base64 s 2 (N.land v 15) 0
          (out ++ [byte_of_N (N.lor (N.shiftl leftchar 2) (N.shiftr v 4))])
    | 2%nat =>
        a2b_base64 s 3 (N.land v 3) 0
          (out ++ [byte_of_N (N.lor (N.shiftl leftchar 4) (N.shiftr v 2))])
    | _ =>
        a2b_base64 s 0 0 0
          (out ++ [byte_of_N (N.lor (N.shiftl leftchar 6) v)])
    end.
Proof.
  intros Hv. pose proof (sextets_ok v Hv) as Hok. unfold sextet_ok in Hok.
  cbn [a2b_base64].
  destruct (table_a2b_base64 (table_b2a_base64 v)) as [u|]; [|discriminate].
  apply andb_prop in Hok as [Hok _]. apply andb_prop in Hok as [Hu Hpad].
  apply N.eqb_eq in Hu. subst u.
  apply negb_true_iff in Hpad. now rewrite Hpad.
Qed.

Lemma table_b2a_ascii v : (v < 64)%N -> (table_b2a_base64 v <? 128)%N = true.
Proof.
  intros Hv. pose proof (sextets_ok v Hv) as Hok. unfold sextet_ok in Hok.
  destruct (table_a2b_base64 (table_b2a_base64 v)); [|discriminate].
  now apply andb_prop in Hok as [_ Hok].
Qed.

Ltac split_checks H :=
  repeat match type of H with
         | (_ && _) = true => let H' := fresh H in apply andb_prop in H as [H H']
         end.

Ltac to_props :=
  repeat match goal with
         | [ H : (_ <? _)%N = true |- _ ] => apply N.ltb_lt in H
         | [ H : (_ =? _)%N = true |- _ ] => apply N.eqb_eq in H
         end.

Section Group.
Variables a b c : byte.
Let x := Byte.to_N a.
Let y := Byte.to_N b.
Let z := Byte.to_N c.

Lemma a2b_full_group rest out :
  a2b_base64 (b64encode (a :: b :: c :: rest)) 0 0 0 out =
    a2b_base64 (b64encode rest) 0 0 0 (out ++ [a; b; c]).
Proof.
  pose proof (group_heads_ok x y (to_N_below a) (to_N_below b)) as Hh.
  pose proof (group_tails_ok y z (to_N_below b) (to_N_below c)) as Ht.
  unfold group_head_ok in Hh. unfold group_tail_ok in Ht.
  cbv zeta in Hh, Ht. split_checks Hh. split_checks Ht. to_props.
  cbn [b64encode]. fold x y z.
  rewrite !a2b_base64_char by assumption.
  rewrite Hh0.
  rewrite (byte_of_N_eq _ a) by assumption.
  rewrite (byte_of_N_eq _ b) by assumption.
  rewrite (byte_of_N_eq _ c) by assumption.
  now rewrite <- !app_assoc.
Qed.

Lemma a2b_one_byte out :
  a2b_base64 (b64encode [a]) 0 0 0 out = Ok (out ++ [a]).
Proof.
  pose proof (group_heads_ok x 0 (to_N_below a) eq_refl) as Hh.
  unfold group_head_ok in Hh. cbv zeta in Hh. split_checks Hh. to_props.
  cbn [b64encode]. fold x.
  rewrite !a2b_base64_char by assumption.
  rewrite (byte_of_N_eq _ a) by assumption.
  reflexivity.
Qed.

Lemma a2b_two_bytes out :
  a2b_base64 (b64encode [a; b]) 0 0 0 out = Ok (out ++ [a; b]).
Proof.
  pose proof (group_heads_ok x y (to_N_below a) (to_N_below b)) as Hh.
  pose proof (group_tails_ok y 0 (to_N_below b) eq_refl) as Ht.
  unfold group_head_ok in Hh. unfold group_tail_ok in Ht.
  cbv zeta in Hh, Ht. split_checks Hh. split_checks Ht. to_props.
  cbn [b64encode]. fold x y.
  rewrite !a2b_base64_char by assumption.
  rewrite Hh0.
  rewrite (byte_of_N_eq _ a) by assumption.
  rewrite (byte_of_N_eq _ b) by assumption.
  cbn. now rewrite <- app_assoc.
Qed.
End Group.

(** Induction that follows the groups of three of [b64encode]. *)
Lemma list_ind3 {A} (P : list A -> Prop) :
  P [] -> (forall a, P [a]) -> (forall a b, P [a; b]) ->
  (forall a b c l, P l -> P (a :: b :: c :: l)) ->
  forall l, P l.
Proof.
  intros H0 H1 H2 H3 l.
  assert (P l /\ (forall a, P (a :: l)) /\ (forall a b, P (a :: b :: l))) as [H _].
  { induction l as [|d l (IH0 & IH1 & IH2)]; repeat split; auto. }
  exact H.
Qed.

Lemma a2b_b64encode data :
  forall out, a2b_base64 (b64encode data) 0 0 0 out = Ok (out ++ data).
Proof.
  induction data as [|a|a b|a b c rest IH] using list_ind3; intros out.
  - simpl. now rewrite app_nil_r.
  - apply a2b_one_byte.
  - apply a2b_two_bytes.
  - rewrite a2b_full_group, IH. now rewrite <- app_assoc.
Qed.

Lemma b64encode_ascii data :
  forallb (fun c => (c <? 128)%N) (b64encode data) = true.
Proof.
  induction data as [|a|a b|a b c rest IH] using list_ind3.
  - reflexivity.
  - pose proof (group_heads_ok _ 0 (to_N_below a) eq_refl) as Hh.
    unfold group_head_ok in Hh. cbv zeta in Hh. split_checks Hh. to_props.
    cbn [b64encode forallb].
    rewrite !table_b2a_ascii by assumption. reflexivity.
  - pose proof (group_heads_ok _ _ (to_N_below a) (to_N_below b)) as Hh.
    pose proof (group_tails_ok _ 0 (to_N_below b) eq_refl) as Ht.
    unfold group_head_ok in Hh. unfold group_tail_ok in Ht.
    cbv zeta in Hh, Ht. split_checks Hh. split_checks Ht. to_props.
    cbn [b64encode forallb].
    rewrite !table_b2a_ascii by assumption. reflexivity.
  - pose proof (group_heads_ok _ _ (to_N_below a) (to_N_below b)) as Hh.
    pose proof (group_tails_ok _ _ (to_N_below b) (to_N_below c)) as Ht.
    unfold group_head_ok in Hh. unfold group_tail_ok in Ht.
    cbv zeta in Hh, Ht. split_checks Hh. split_checks Ht. to_props.
    cbn [b64encode forallb].
    rewrite !table_b2a_ascii by assumption. exact IH.
Qed.

(** C9. Decoding the base64 text of any byte sequence gives the sequence
    back: what [jpg_to_base64] produces from a page image is decoded by
    [base64.b64decode] to the bytes of that image. *)
Theorem b64decode_b64encode (data : list byte) :
  b64decode (b64encode data) = Ok data.
Proof.
  unfold b64decode. rewrite b64encode_ascii. apply a2b_b64encode.
Qed.

(** The payload that [encode_page] stores for a page image is read back
    and decoded to the bytes of the image (source lines 165-170 and
    248-253). *)
Lemma stored_payload_decodes (env : Env) (jpg_file : pystr) (data : list byte)
    (fs fs' : directory) :
  read_bytes env jpg_file fs = (Ok data, fs) ->
  encode_page env jpg_file fs = (Ok tt, fs') ->
  exists b64_content : pystr,
    read_text env (b64_name jpg_file) fs' = (Ok b64_content, fs')
    /\ b64decode b64_content = Ok data.
Proof.
  intros Hread Henc. exists (b64encode data).
  unfold encode_page, jpg_to_base64, bind, ret, getsize in Henc.
  destruct (fs !! jpg_file) as [n|]; [|discriminate].
  rewrite Hread in Henc.
  unfold write_file, bind, open_w, dump in Henc.
  assert (fs' = <[b64_name jpg_file := File (Text (b64encode data))]> fs) as ->.
  { destruct (fs !! b64_name jpg_file) as [[c|]|]; try discriminate;
      injection Henc as <-; now rewrite insert_insert_eq. }
  split.
  - unfold read_text. now rewrite lookup_insert_eq.
  - unfold b64decode. rewrite b64encode_ascii. apply a2b_b64encode.
Qed.

(* ===================================================================== *)
(** ** RecognitionStage and DocumentAggregator: the page loop             *)
(* ===================================================================== *)

Lemma read_text_keeps (env : Env) (name : pystr) (fs : directory) : snd (read_text env name fs) = fs.
Proof.
  unfold read_text.
  destruct (fs !! name) as [[[]|]|]; reflexivity.
Qed.

(** The loop body in terms of [recognise]. *)
Lemma ocr_page_recognise env b64_file acc fs :
  ocr_page env b64_file acc fs =
    match recognise env fs b64_file with
    | Raise e => (Raise e, fs)
    | Ok (page_num, response) =>
        if nonempty (error_message response) then (Ok acc, fs)
        else
          (Ok {| all_text := all_text acc ++ [response_text response];
                 all_structured_data :=
                   all_structured_data acc ++ [build_page_data page_num response];
                 page_timings :=
                   page_timings acc ++
                   [{| pt_page := page_num;
                       pt_file := b64_file;
                       pt_total_time :=
                         (clock env (at_page_end b64_file)
                          - clock env (at_page_start b64_file))%Q;
                       pt_api_call_time :=
                         (clock env (at_api_call_end b64_file)
                          - clock env (at_api_call_start b64_file))%Q;
                       pt_text_length := length (response_text response) |}] |},
           fs)
    end.
Proof.
  unfold ocr_page, recognise, bind, lift, ret.
  destruct (page_number_of b64_file) as [page_num|e]; simpl; [|reflexivity].
  pose proof (read_text_keeps env b64_file fs) as Hfs.
  destruct (read_text env b64_file fs) as [[s|e] fs0]; simpl in *; subst fs0;
    [|reflexivity].
  destruct (b64decode s) as [image|e]; simpl; [|reflexivity].
  destruct (document_text_detection env image) as [response|e]; simpl;
    [|reflexivity].
  destruct (nonempty (error_message response)); reflexivity.
Qed.





Lemma pages_loop_recognised env fs :
  forall b64_files recognised acc,
    Forall2 (fun f nr => recognise env fs f = Ok nr) b64_files recognised ->
    let successes := List.filter succeeded (combine b64_files recognised) in
    pages_loop env b64_files acc fs =
      (Ok {| all_text := all_text acc ++ List.map text_of successes;
             all_structured_data :=
               all_structured_data acc ++ List.map entry_of successes;
             page_timings :=
               page_timings acc ++ List.map (timing_of env) successes |},
       fs).
Proof.
  intros b64_files recognised acc Hall. revert acc.
  induction Hall as [|f [page_num response] fl rl Hf _ IH]; intros acc.
  - simpl. rewrite !app_nil_r. now destruct acc.
  - cbn [pages_loop combine List.filter].
    unfold bind. rewrite ocr_page_recognise, Hf.
    change (succeeded (f, (page_num, response)))
      with (negb (nonempty (error_message response))).
    destruct (nonempty (error_message response)); cbn [negb].
    + apply IH.
    + rewrite IH. cbn [all_text all_structured_data page_timings List.map].
      now rewrite <- !app_assoc.
Qed.

Lemma open_w_ok (name : pystr) (fs : directory) :
  fs !! name <> Some Dir ->
  open_w name fs = (Ok tt, <[name := File (Text [])]> fs).
Proof.
  intros Hnd. unfold open_w.
  destruct (fs !! name) as [[c|]|]; congruence.
Qed.

Lemma write_file_ok (name : pystr) (c : content) (fs : directory) :
  fs !! name <> Some Dir ->
  write_file name c fs = (Ok tt, <[name := File c]> fs).
Proof.
  intros Hnd. unfold write_file, bind, dump.
  rewrite open_w_ok by assumption. now rewrite insert_insert_eq.
Qed.

Lemma artifact_names_distinct :
  extraction_timing_json <> extracted_text_txt
  /\ extraction_timing_json <> extracted_structured_text_json
  /\ extracted_text_txt <> extracted_structured_text_json
  /\ processing_timing_json <> extraction_timing_json
  /\ processing_timing_json <> extracted_text_txt
  /\ processing_timing_json <> extracted_structured_text_json.
Proof. repeat split; discriminate. Qed.

(** C4. When the service reports an error for some pages (and nothing
    raises), [extract_text_from_b64_images] runs to its end: the structured
    JSON, the text file and the timing file hold one entry per page without
    error, in the order of the payload files, and nothing for the pages
    with an error. *)
Theorem failed_pages_are_skipped
    (env : Env) (fs : directory)
    (b64_files : list pystr) (recognised : list (Z * Response))
    (Hlisted : fst (list_outputs (lit ".b64") fs) = Ok b64_files)
    (Hpages : b64_files <> [])
    (Hclient : make_client env = Ok tt)
    (Hrecognised :
       Forall2 (fun f nr => recognise env fs f = Ok nr) b64_files recognised)
    (Htiming : fs !! extraction_timing_json <> Some Dir)
    (Htext : fs !! extracted_text_txt <> Some Dir)
    (Hstructured : fs !! extracted_structured_text_json <> Some Dir) :
  let successes := List.filter succeeded (combine b64_files recognised) in
  exists (fs' : directory) (timing : extraction_timing),
    extract_text_from_b64_images env fs = (Ok tt, fs')
    /\ fs' !! extracted_structured_text_json =
         Some (File (StructuredJson (List.map entry_of successes)))
    /\ fs' !! extracted_text_txt =
         Some (File (Text (join page_separator (List.map text_of successes))))
    /\ fs' !! extraction_timing_json = Some (File (ExtractionTimingJson timing))
    /\ et_pages timing = List.map (timing_of env) successes
    /\ et_total_pages timing = length successes
    /\ List.map page_number (List.map entry_of successes)
         = List.map (fun page => fst (snd page)) successes
    /\ List.map pt_file (et_pages timing) = List.map fst successes.
Proof.
  intros successes.
  destruct artifact_names_distinct as (Hn1 & Hn2 & Hn3 & _).
  unfold extract_text_from_b64_images.
  unfold bind at 1.
  unfold list_outputs, bind, listdir, ret in Hlisted |- *. simpl in Hlisted |- *.
  injection Hlisted as Hlisted. rewrite Hlisted.
  destruct b64_files as [|f0 fl]; [congruence|].
  unfold lift. rewrite Hclient.
  rewrite (pages_loop_recognised env fs (f0 :: fl) recognised accs_init Hrecognised).
  fold successes. cbn [all_text all_structured_data page_timings accs_init app].
  rewrite open_w_ok by assumption. unfold dump.
  rewrite insert_insert_eq.
  rewrite write_file_ok by (rewrite lookup_insert_ne by assumption; assumption).
  rewrite write_file_ok by (rewrite !lookup_insert_ne by assumption; assumption).
  eexists _, _. split; [reflexivity|].
  repeat split.
  - now rewrite lookup_insert_eq.
  - rewrite lookup_insert_ne by congruence. now rewrite lookup_insert_eq.
  - rewrite !lookup_insert_ne by congruence. now rewrite lookup_insert_eq.
  - reflexivity.
  - apply List.length_map.
  - rewrite List.map_map. reflexivity.
  - cbn [et_pages]. rewrite List.map_map. apply List.map_ext.
    now intros [f [n r]].
Qed.

Lemma failed_pages_are_skipped_witness :
  let env := example_env [] no_conversion in
  let b64_files := [lit "output-1.b64"; lit "output-2.b64"; lit "output-3.b64"] in
  let recognised :=
    [(1, {| error_message := [];
            full_text_annotation :=
              Some {| annotation_text := lit "first"; annotation_pages := [] |} |});
     (2, {| error_message := lit "Bad image data"; full_text_annotation := None |});
     (3, {| error_message := [];
            full_text_annotation :=
              Some {| annotation_text := lit "third"; annotation_pages := [] |} |})] in
  let successes := List.filter succeeded (combine b64_files recognised) in
  List.map fst successes = [lit "output-1.b64"; lit "output-3.b64"]
  /\ exists (fs' : directory) (timing : extraction_timing),
    extract_text_from_b64_images env three_payloads = (Ok tt, fs')
    /\ fs' !! extracted_structured_text_json =
         Some (File (StructuredJson (List.map entry_of successes)))
    /\ fs' !! extracted_text_txt =
         Some (File (Text (join page_separator (List.map text_of successes))))
    /\ fs' !! extraction_timing_json = Some (File (ExtractionTimingJson timing))
    /\ et_pages timing = List.map (timing_of env) successes
    /\ et_total_pages timing = length successes
    /\ List.map page_number (List.map entry_of successes)
         = List.map (fun page => fst (snd page)) successes
    /\ List.map pt_file (et_pages timing) = List.map fst successes.
Proof.
  intros env b64_files recognised successes.
  split; [reflexivity|].
  apply (failed_pages_are_skipped env three_payloads b64_files recognised).
  - vm_compute. reflexivity.
  - discriminate.
  - reflexivity.
  - repeat constructor.
  - vm_compute. discriminate.
  - vm_compute. discriminate.
  - vm_compute. discriminate.
Defined.


(** C2 (what the code does on the failing input).  With the payloads of
    pages 2 and 10 in the directory, [sorted] puts [output-10.b64] before
    [output-2.b64], and the structured JSON, the text file and the timing
    file all carry page 10 before page 2. *)
Theorem mixed_width_pages_out_of_order :
  let env := example_env [] no_conversion in
  fst (list_outputs (lit ".b64") mixed_width_payloads)
    = Ok [lit "output-10.b64"; lit "output-2.b64"]
  /\ exists (fs' : directory) (pages : list page_data) (timing : extraction_timing),
       extract_text_from_b64_images env mixed_width_payloads = (Ok tt, fs')
       /\ fs' !! extracted_structured_text_json = Some (File (StructuredJson pages))
       /\ List.map page_number pages = [10; 2]
       /\ fs' !! extracted_text_txt
            = Some (File (Text (lit "ten" ++ page_separator ++ lit "two")))
       /\ fs' !! extraction_timing_json = Some (File (ExtractionTimingJson timing))
       /\ List.map pt_page (et_pages timing) = [10; 2].
Proof.
  intros env. split; [vm_compute; reflexivity|].
  eexists _, _, _. split; [reflexivity|].
  split; [vm_compute; reflexivity|].
  split; [reflexivity|].
  split; [vm_compute; reflexivity|].
  split; [vm_compute; reflexivity|].
  reflexivity.
Qed.

(* ===================================================================== *)
(** ** PipelineOrchestrator                                               *)
(* ===================================================================== *)

Lemma timing_name_not_input : processing_timing_json <> input_file.
Proof. discriminate. Qed.

(** The [finally] block touches one name only. *)
Lemma save_overall_timing_spec (env : Env) (fs : directory) :
  snd (save_overall_timing env fs) =
    match fs !! processing_timing_json with
    | Some Dir => fs
    | _ =>
        <[processing_timing_json :=
            File (ProcessingTimingJson
                    {| prt_start_time := clock env at_start_time;
                       prt_end_time := clock env at_end_time;
                       prt_total_duration_seconds :=
                         (clock env at_end_time - clock env at_start_time)%Q;
                       prt_pdf_path := lit "/images/input.pdf";
                       prt_pdf_size_bytes := st_size env <$> fs !! input_file |})]> fs
    end.
Proof.
  unfold save_overall_timing, try_except, bind, open_w, path_exists, getsize,
    dump, ret.
  destruct (fs !! processing_timing_json) as [[c|]|] eqn:Hl; simpl;
    try reflexivity;
    rewrite lookup_insert_ne by apply timing_name_not_input;
    destruct (fs !! input_file) as [n|] eqn:Hin; simpl;
    rewrite ?lookup_insert_ne by apply timing_name_not_input;
    rewrite ?Hin; simpl; now rewrite insert_insert_eq.
Qed.

Lemma save_overall_timing_frame (env : Env) (fs : directory) (name : pystr) :
  name <> processing_timing_json ->
  snd (save_overall_timing env fs) !! name = fs !! name.
Proof.
  intros Hne. rewrite save_overall_timing_spec.
  destruct (fs !! processing_timing_json) as [[c|]|];
    try reflexivity; now rewrite lookup_insert_ne by congruence.
Qed.

(** A run whose stability check returned [False]. *)
Lemma process_pdf_not_stable (env : Env) (fs : directory) :
  is_file_stable (samples env) default_stable_period = Some (Ok false) ->
  process_pdf env fs = Some (snd (save_overall_timing env fs)).
Proof.
  intros Hgate. unfold process_pdf. rewrite Hgate.
  reflexivity.
Qed.

(** C1 (amended). When the input file vanishes during the stability check,
    the run ends without converting, encoding or recognising anything: no
    entry of the watch directory changes except [processing_timing.json],
    which the [finally] block writes (with the size of the input file, or
    [None] when it is still absent) unless a directory has that name. *)
Theorem vanished_file_run_writes_only_timing (env : Env) (fs : directory)
    (Hgate : is_file_stable (samples env) default_stable_period = Some (Ok false)) :
  exists fs' : directory,
    process_pdf env fs = Some fs'
    /\ (forall name : pystr,
          name <> processing_timing_json -> fs' !! name = fs !! name)
    /\ (fs !! processing_timing_json <> Some Dir ->
        exists t : processing_timing,
          fs' !! processing_timing_json = Some (File (ProcessingTimingJson t))
          /\ prt_pdf_size_bytes t = st_size env <$> fs !! input_file)
    /\ (fs !! processing_timing_json = Some Dir -> fs' = fs).
Proof.
  exists (snd (save_overall_timing env fs)).
  split; [now apply process_pdf_not_stable|].
  split; [intros name Hne; now apply save_overall_timing_frame|].
  rewrite save_overall_timing_spec.
  split.
  - intros Hnd.
    destruct (fs !! processing_timing_json) as [[c|]|]; try congruence;
      eexists; (split; [apply lookup_insert_eq | reflexivity]).
  - intros Hd. now rewrite Hd.
Qed.

Lemma vanished_file_run_writes_only_timing_witness :
  exists fs' : directory,
    process_pdf vanishing_env ∅ = Some fs'
    /\ (forall name : pystr,
          name <> processing_timing_json -> fs' !! name = (∅ : directory) !! name)
    /\ ((∅ : directory) !! processing_timing_json <> Some Dir ->
        exists t : processing_timing,
          fs' !! processing_timing_json = Some (File (ProcessingTimingJson t))
          /\ prt_pdf_size_bytes t =
               st_size vanishing_env <$> (∅ : directory) !! input_file)
    /\ ((∅ : directory) !! processing_timing_json = Some Dir -> fs' = ∅).
Proof.
  apply (vanished_file_run_writes_only_timing vanishing_env ∅).
  reflexivity.
Defined.

(** C1 (as stated, refuted).  The input file is gone at the second poll,
    the stability check returns [False], and the run still leaves
    [processing_timing.json] in a directory that was empty. *)
Lemma vanished_file_run_writes_timing_file :
  is_file_stable (samples vanishing_env) default_stable_period = Some (Ok false)
  /\ process_pdf vanishing_env ∅ <> Some ∅
  /\ exists (fs' : directory) (t : processing_timing),
       process_pdf vanishing_env ∅ = Some fs'
       /\ fs' !! processing_timing_json = Some (File (ProcessingTimingJson t)).
Proof.
  split; [reflexivity|].
  rewrite process_pdf_not_stable by reflexivity.
  rewrite save_overall_timing_spec. rewrite !lookup_empty. simpl.
  split.
  - intros Heq.
    apply (f_equal (fun o : option directory =>
                      match o with
                      | Some m => m !! processing_timing_json
                      | None => None
                      end)) in Heq.
    rewrite lookup_insert_eq, lookup_empty in Heq. discriminate.
  - eexists _, _. split; [reflexivity|]. apply lookup_insert_eq.
Qed.

(* --------------------------------------------------------------------- *)
(** *** The encoding loop                                                 *)
(* --------------------------------------------------------------------- *)

Lemma getsize_keeps (env : Env) (name : pystr) (fs : directory) :
  snd (getsize env name fs) = fs.
Proof. unfold getsize. now destruct (fs !! name). Qed.

Lemma read_bytes_keeps (env : Env) (name : pystr) (fs : directory) :
  snd (read_bytes env name fs) = fs.
Proof. unfold read_bytes. destruct (fs !! name) as [[[]|]|]; reflexivity. Qed.

(** [encode_page] either raises and leaves the directory as it was, or
    stores the payload under the page's [.b64] name. *)
Lemma encode_page_cases (env : Env) (jpg_file : pystr) (fs : directory) :
  (exists e, encode_page env jpg_file fs = (Raise e, fs))
  \/ (exists data, encode_page env jpg_file fs =
        (Ok tt, <[b64_name jpg_file := File (Text (b64encode data))]> fs)).
Proof.
  unfold encode_page, jpg_to_base64, bind, ret.
  pose proof (getsize_keeps env jpg_file fs) as Hg.
  destruct (getsize env jpg_file fs) as [[size|e] fs0]; simpl in Hg; subst fs0;
    [|left; eauto].
  pose proof (read_bytes_keeps env jpg_file fs) as Hr.
  destruct (read_bytes env jpg_file fs) as [[data|e] fs0]; simpl in Hr; subst fs0;
    [|left; eauto].
  destruct (fs !! b64_name jpg_file) as [[c|]|] eqn:Hl.
  - right. exists data. apply write_file_ok. congruence.
  - left. exists IsADirectoryError. unfold write_file, bind, open_w. now rewrite Hl.
  - right. exists data. apply write_file_ok. congruence.
Qed.

Lemma encode_page_raise_keeps (env : Env) (jpg_file : pystr) (fs : directory) e :
  fst (encode_page env jpg_file fs) = Raise e ->
  encode_page env jpg_file fs = (Raise e, fs).
Proof.
  intros He.
  destruct (encode_page_cases env jpg_file fs) as [[e' H]|[data H]];
    rewrite H in He |- *; simpl in He; congruence.
Qed.

Lemma encode_page_frame (env : Env) (jpg_file : pystr) (fs : directory)
    (name : pystr) :
  name <> b64_name jpg_file ->
  snd (encode_page env jpg_file fs) !! name = fs !! name.
Proof.
  intros Hne.
  destruct (encode_page_cases env jpg_file fs) as [[e H]|[data H]];
    rewrite H; simpl; [reflexivity|].
  now rewrite lookup_insert_ne by congruence.
Qed.

Lemma encode_pages_frame (env : Env) (jpg_files : list pystr) (name : pystr) :
  name ∉ List.map b64_name jpg_files ->
  forall fs : directory, snd (encode_pages env jpg_files fs) !! name = fs !! name.
Proof.
  induction jpg_files as [|j l IH]; intros Hnot fs; simpl; [reflexivity|].
  simpl in Hnot. rewrite not_elem_of_cons in Hnot. destruct Hnot as [Hne Hnot].
  unfold bind.
  pose proof (encode_page_frame env j fs name Hne) as Hj.
  destruct (encode_page env j fs) as [[[]|e] fs0]; simpl in *.
  - now rewrite IH.
  - exact Hj.
Qed.

Lemma encode_pages_stops (env : Env) (done : list pystr) (f : pystr)
    (rest : list pystr) (e : exn) :
  forall fs1 fs2 : directory,
    encode_pages env done fs1 = (Ok tt, fs2) ->
    fst (encode_page env f fs2) = Raise e ->
    encode_pages env (done ++ f :: rest) fs1 = (Raise e, fs2).
Proof.
  induction done as [|j l IH]; intros fs1 fs2 Hdone Hf; simpl in *.
  - injection Hdone as <-. unfold bind.
    now rewrite (encode_page_raise_keeps _ _ _ _ Hf).
  - unfold bind in *.
    destruct (encode_page env j fs1) as [[[]|e'] fs0]; [|discriminate].
    now apply IH.
Qed.

(** After a loop that ended normally every page has a payload. *)
Lemma encode_pages_payloads (env : Env) (jpg_files : list pystr) :
  forall fs fs' : directory,
    encode_pages env jpg_files fs = (Ok tt, fs') ->
    forall j, In j jpg_files ->
      exists data, fs' !! b64_name j = Some (File (Text (b64encode data))).
Proof.
  induction jpg_files as [|j0 l IH]; intros fs fs' Hrun j Hj; [destruct Hj|].
  simpl in Hrun. unfold bind in Hrun.
  destruct (encode_page_cases env j0 fs) as [[e H0]|[data H0]];
    rewrite H0 in Hrun; [discriminate|].
  destruct (decide (b64_name j ∈ List.map b64_name l)) as [Hin|Hnot].
  - apply list_elem_of_In, in_map_iff in Hin. destruct Hin as (j' & Heq & Hj').
    rewrite <- Heq. now apply (IH _ _ Hrun).
  - destruct Hj as [<-|Hj].
    + exists data.
      pose proof (encode_pages_frame env l _ Hnot
                    (<[b64_name j0 := File (Text (b64encode data))]> fs)) as Hfr.
      rewrite Hrun in Hfr. simpl in Hfr. rewrite Hfr. apply lookup_insert_eq.
    + now apply (IH _ _ Hrun).
Qed.

(* --------------------------------------------------------------------- *)
(** *** Names                                                             *)
(* --------------------------------------------------------------------- *)

Lemma In_insert_sorted (x y : pystr) (l : list pystr) :
  In y (insert_sorted x l) <-> y = x \/ In y l.
Proof.
  induction l as [|z l IH]; simpl.
  - intuition.
  - destruct (str_leb x z); simpl; rewrite ?IH; intuition.
Qed.

Lemma In_sorted (y : pystr) (l : list pystr) : In y (sorted l) <-> In y l.
Proof.
  unfold sorted. induction l as [|x l IH]; simpl; [tauto|].
  rewrite In_insert_sorted, IH. intuition.
Qed.

Lemma list_outputs_is_output (ext : pystr) (fs : directory) (names : list pystr) :
  fst (list_outputs ext fs) = Ok names ->
  forall f, In f names -> is_output ext f = true.
Proof.
  unfold list_outputs, bind, listdir, ret. simpl. intros [= <-] f Hf.
  apply In_sorted, filter_In in Hf. tauto.
Qed.

(** The payload name of an [output-] file is an [output-] name. *)
Lemma b64_name_prefix (jpg_file : pystr) :
  startswith jpg_file (lit "output-") = true ->
  startswith (b64_name jpg_file) (lit "output-") = true.
Proof.
  change (lit "output-") with [111; 117; 116; 112; 117; 116; 45]%N.
  intros H.
  do 7 (destruct jpg_file as [|? jpg_file]; [discriminate|];
        cbn [startswith] in H; apply andb_prop in H as [?%N.eqb_eq H]; subst).
  unfold b64_name, replace.
  change (lit ".jpg") with [46; 106; 112; 103]%N. cbn.
  now destruct (replace_from _ _ _ jpg_file).
Qed.

Lemma not_a_payload_name (name : pystr) (jpg_files : list pystr) :
  startswith name (lit "output-") = false ->
  (forall f, In f jpg_files -> is_output (lit ".jpg") f = true) ->
  name ∉ List.map b64_name jpg_files.
Proof.
  intros Hname Hall Hin.
  apply list_elem_of_In, in_map_iff in Hin. destruct Hin as (f & <- & Hf).
  apply Hall in Hf. unfold is_output in Hf. apply andb_prop in Hf as [Hf _].
  apply b64_name_prefix in Hf. congruence.
Qed.

(* --------------------------------------------------------------------- *)
(** *** A page that cannot be encoded                                     *)
(* --------------------------------------------------------------------- *)

(** A run that reaches the encoding loop and meets a page that raises. *)
Lemma process_pdf_encoding_raises (env : Env) (fs fs1 fs2 : directory)
    (done rest : list pystr) (f : pystr) (e : exn) :
  is_file_stable (samples env) default_stable_period = Some (Ok true) ->
  is_Some (fs !! input_file) ->
  convert env fs = (Ok 0, fs1) ->
  fst (list_outputs (lit ".jpg") fs1) = Ok (done ++ f :: rest) ->
  encode_pages env done fs1 = (Ok tt, fs2) ->
  fst (encode_page env f fs2) = Raise e ->
  process_pdf env fs = Some (snd (save_overall_timing env fs2)).
Proof.
  intros Hgate [n Hin] Hconv Hlist Hdone Hf.
  unfold process_pdf. rewrite Hgate. f_equal.
  unfold process_after_gate, pipeline, convert_and_extract.
  unfold bind at 1. unfold try_except at 1. unfold bind at 1. unfold lift.
  cbn [negb]. unfold bind at 1. unfold getsize at 1. rewrite Hin.
  unfold try_except at 1. unfold bind at 1. rewrite Hconv. cbn [Z.eqb negb].
  unfold bind at 1.
  unfold list_outputs, bind, listdir, ret in Hlist. simpl in Hlist.
  injection Hlist as Hlist.
  unfold list_outputs at 1. unfold bind at 1. unfold listdir at 1.
  unfold ret at 1. rewrite Hlist.
  destruct (done ++ f :: rest) as [|j l] eqn:Happ; [now destruct done|].
  rewrite <- Happ. unfold bind at 1.
  now rewrite (encode_pages_stops env done f rest e fs1 fs2 Hdone Hf).
Qed.

(** C3 (amended). An error while encoding or storing one page's payload
    ends the run: the pages sorted before it have their payloads, no other
    entry changes after the conversion except [processing_timing.json];
    in particular the failing page and the pages after it get no payload,
    and the text file, the structured JSON and the extraction timing file
    are not written. *)
Theorem encoding_error_aborts_run (env : Env) (fs fs1 fs2 : directory)
    (done rest : list pystr) (f : pystr) (e : exn)
    (Hgate : is_file_stable (samples env) default_stable_period = Some (Ok true))
    (Hinput : is_Some (fs !! input_file))
    (Hconvert : convert env fs = (Ok 0, fs1))
    (Hlisted : fst (list_outputs (lit ".jpg") fs1) = Ok (done ++ f :: rest))
    (Hdone : encode_pages env done fs1 = (Ok tt, fs2))
    (Hfails : fst (encode_page env f fs2) = Raise e) :
  exists fs' : directory,
    process_pdf env fs = Some fs'
    /\ (forall name : pystr,
          name <> processing_timing_json ->
          name ∉ List.map b64_name done ->
          fs' !! name = fs1 !! name)
    /\ fs' !! extracted_text_txt = fs1 !! extracted_text_txt
    /\ fs' !! extracted_structured_text_json = fs1 !! extracted_structured_text_json
    /\ fs' !! extraction_timing_json = fs1 !! extraction_timing_json
    /\ (forall j, In j done ->
          exists data, fs' !! b64_name j = Some (File (Text (b64encode data))))
    /\ (fs1 !! processing_timing_json <> Some Dir ->
        exists t : processing_timing,
          fs' !! processing_timing_json = Some (File (ProcessingTimingJson t))).
Proof.
  exists (snd (save_overall_timing env fs2)).
  split; [now apply (process_pdf_encoding_raises env fs fs1 fs2 done rest f e)|].
  assert (Hframe : forall name : pystr,
             name <> processing_timing_json ->
             name ∉ List.map b64_name done ->
             snd (save_overall_timing env fs2) !! name = fs1 !! name).
  { intros name Hne Hnot. rewrite save_overall_timing_frame by assumption.
    pose proof (encode_pages_frame env done name Hnot fs1) as Hfr.
    now rewrite Hdone in Hfr. }
  split; [exact Hframe|].
  assert (Hjpg : forall j, In j done -> is_output (lit ".jpg") j = true).
  { intros j Hj. apply (list_outputs_is_output _ _ _ Hlisted).
    apply in_or_app. now left. }
  destruct artifact_names_distinct as (_ & _ & _ & H1 & H2 & H3).
  split; [apply Hframe; [congruence | now apply not_a_payload_name]|].
  split; [apply Hframe; [congruence | now apply not_a_payload_name]|].
  split; [apply Hframe; [congruence | now apply not_a_payload_name]|].
  split.
  - intros j Hj.
    destruct (encode_pages_payloads env done fs1 fs2 Hdone j Hj) as [data Hdata].
    exists data. rewrite save_overall_timing_frame; [exact Hdata|].
    intros Heq. apply Hjpg in Hj. unfold is_output in Hj.
    apply andb_prop in Hj as [Hj _]. apply b64_name_prefix in Hj.
    rewrite Heq in Hj. discriminate.
  - intros Hnd.
    assert (Hsame : fs2 !! processing_timing_json = fs1 !! processing_timing_json).
    { pose proof (encode_pages_frame env done processing_timing_json
                    (not_a_payload_name processing_timing_json done eq_refl Hjpg) fs1)
        as Hfr.
      now rewrite Hdone in Hfr. }
    rewrite save_overall_timing_spec, Hsame.
    destruct (fs1 !! processing_timing_json) as [[c|]|]; try congruence;
      eexists; apply lookup_insert_eq.
Qed.

Lemma encoding_error_aborts_run_witness :
  exists fs' : directory,
    process_pdf blocked_payload_env blocked_payload_dir = Some fs'
    /\ (forall name : pystr,
          name <> processing_timing_json ->
          name ∉ List.map b64_name [lit "output-0.jpg"] ->
          fs' !! name = converted_dir !! name)
    /\ fs' !! extracted_text_txt = converted_dir !! extracted_text_txt
    /\ fs' !! extracted_structured_text_json =
         converted_dir !! extracted_structured_text_json
    /\ fs' !! extraction_timing_json = converted_dir !! extraction_timing_json
    /\ (forall j, In j [lit "output-0.jpg"] ->
          exists data, fs' !! b64_name j = Some (File (Text (b64encode data))))
    /\ (converted_dir !! processing_timing_json <> Some Dir ->
        exists t : processing_timing,
          fs' !! processing_timing_json = Some (File (ProcessingTimingJson t))).
Proof.
  apply (encoding_error_aborts_run blocked_payload_env blocked_payload_dir
           converted_dir first_page_encoded_dir
           [lit "output-0.jpg"] [lit "output-2.jpg"] (lit "output-1.jpg")
           IsADirectoryError).
  - reflexivity.
  - vm_compute. eauto.
  - reflexivity.
  - vm_compute. reflexivity.
  - vm_compute. reflexivity.
  - vm_compute. reflexivity.
Defined.

(** C3 (as stated, refuted).  The payload of page 1 cannot be stored
    (a directory has its name).  Page 2 could be encoded on its own, but
    the run stops at page 1: page 0 keeps its payload, page 2 gets none,
    and neither the text file nor the structured JSON is written, so
    pages 0 and 2 are never recognised or aggregated. *)
Lemma encoding_error_is_not_isolated :
  fst (encode_page blocked_payload_env (lit "output-1.jpg") first_page_encoded_dir)
    = Raise IsADirectoryError
  /\ fst (encode_page blocked_payload_env (lit "output-2.jpg") first_page_encoded_dir)
      = Ok tt
  /\ exists fs' : directory,
       process_pdf blocked_payload_env blocked_payload_dir = Some fs'
       /\ fs' !! lit "output-0.b64" = Some (payload "first")
       /\ fs' !! lit "output-2.b64" = None
       /\ fs' !! extracted_text_txt = None
       /\ fs' !! extracted_structured_text_json = None
       /\ fs' !! extraction_timing_json = None.
Proof.
  split; [vm_compute; reflexivity|].
  split; [vm_compute; reflexivity|].
  eexists. split; [reflexivity|].
  repeat split; vm_compute; reflexivity.
Qed.

(* ===================================================================== *)
(** * Further properties                                                  *)
(* ===================================================================== *)

(* ===================================================================== *)
(** ** StabilityGate: the verdicts of [is_file_stable]                    *)
(* ===================================================================== *)

(** X1. When a poll finds the file gone while the check is still polling,
    [is_file_stable] returns [False] at that poll, whatever was observed
    before and whatever would be observed later. *)
Theorem vanished_file_is_not_stable (period : Q) (pre rest : list sample)
    (s : sample)
    (Hpre : is_file_stable pre period = None)
    (Hgone : getsize_result s = Raise FileNotFoundError) :
  is_file_stable (pre ++ s :: rest) period = Some (Ok false).
Proof.
  unfold is_file_stable in *.
  destruct (gate_loop_app_polling period pre gate_init Hpre) as [st' Hst'].
  rewrite Hst'. simpl. unfold poll. now rewrite Hgone.
Qed.

Lemma vanished_file_is_not_stable_witness :
  is_file_stable ([observed 100 10; observed 250 11] ++ vanished 12 :: [observed 250 13])
    default_stable_period = Some (Ok false).
Proof.
  apply vanished_file_is_not_stable; reflexivity.
Defined.

(** The loop's variables describe what was polled so far: either no size
    has been recorded yet, or [last_size] and [stable_start] are the size
    and the time of an earlier poll, and every poll since was quiet. *)
Lemma gate_loop_true_from period obs :
  forall st seen,
    (stable_start st = None
     \/ exists pre s mid,
          seen = pre ++ s :: mid
          /\ getsize_result s = Ok (last_size st)
          /\ last_size st <> 0
          /\ stable_start st = Some (current_time s)
          /\ Forall (quiet (last_size st)) mid) ->
    gate_loop period st obs = Some (Ok true) ->
    exists pre s mid s' post n,
      seen ++ obs = pre ++ s :: mid ++ s' :: post
      /\ getsize_result s = Ok n
      /\ getsize_result s' = Ok n
      /\ n <> 0
      /\ (period <= current_time s' - current_time s)%Q
      /\ Forall (quiet n) mid.
Proof.
  induction obs as [|s0 obs IH]; intros st seen Hinv Hrun; [discriminate|].
  simpl in Hrun. unfold poll in Hrun.
  replace (seen ++ s0 :: obs) with ((seen ++ [s0]) ++ obs)
    by now rewrite <- app_assoc.
  destruct (getsize_result s0) as [size|e] eqn:Hs0.
  - destruct (size =? 0) eqn:Hz.
    + apply Z.eqb_eq in Hz. subst size.
      apply (IH st); [|exact Hrun].
      destruct Hinv as [Hnone|(pre & s & mid & -> & Hs & Hnz & Hstart & Hmid)];
        [now left|right].
      exists pre, s, (mid ++ [s0]). rewrite <- app_assoc. simpl.
      repeat split; try assumption.
      apply Forall_app. split; [assumption|].
      constructor; [now right | constructor].
    + apply Z.eqb_neq in Hz.
      destruct (size =? last_size st) eqn:Hsame; cbn [negb] in Hrun.
      * apply Z.eqb_eq in Hsame. subst size.
        destruct Hinv as [Hnone|(pre & s & mid & -> & Hs & Hnz & Hstart & Hmid)].
        -- rewrite Hnone in Hrun. apply (IH st); [now left | exact Hrun].
        -- rewrite Hstart in Hrun.
           destruct (truthy (Some (current_time s))
                     && Qle_bool period (current_time s0 - current_time s))
             eqn:Hq.
           ++ apply andb_prop in Hq as [_ Hq]. apply Qle_bool_iff in Hq.
              exists pre, s, mid, s0, obs, (last_size st).
              rewrite <- ?app_assoc. simpl. rewrite <- ?app_assoc. simpl.
              repeat split; assumption.
           ++ apply (IH st); [|exact Hrun]. right.
              exists pre, s, (mid ++ [s0]). rewrite <- app_assoc. simpl.
              repeat split; try assumption.
              apply Forall_app. split; [assumption|].
              constructor; [now left | constructor].
      * eapply IH; [|exact Hrun]. right.
        exists seen, s0, []. simpl. repeat split; try assumption. constructor.
  - destruct e; discriminate.
Qed.

(** X2. [is_file_stable] returns [True] only when the observations contain
    two polls of the same non-zero size that lie at least the stable period
    apart, with nothing between them but polls of that size or of size
    zero. *)
Theorem stable_verdict_is_justified (period : Q) (obs : list sample)
    (Htrue : is_file_stable obs period = Some (Ok true)) :
  exists pre s mid s' post n,
    obs = pre ++ s :: mid ++ s' :: post
    /\ getsize_result s = Ok n
    /\ getsize_result s' = Ok n
    /\ n <> 0
    /\ (period <= current_time s' - current_time s)%Q
    /\ Forall (quiet n) mid.
Proof.
  apply (gate_loop_true_from period obs gate_init []); [now left | exact Htrue].
Qed.

Lemma stable_verdict_is_justified_witness :
  exists pre s mid s' post n,
    [observed 0 9; observed 100 10; observed 100 11; observed 100 12; observed 100 13]
      = pre ++ s :: mid ++ s' :: post
    /\ getsize_result s = Ok n
    /\ getsize_result s' = Ok n
    /\ n <> 0
    /\ (default_stable_period <= current_time s' - current_time s)%Q
    /\ Forall (quiet n) mid.
Proof.
  apply stable_verdict_is_justified. reflexivity.
Defined.

Lemma gate_loop_waits period n t1 mid :
  Forall (fun m => quiet n m
                   /\ Qle_bool period (current_time m - t1) = false) mid ->
  n <> 0 ->
  forall rest,
    gate_loop period {| last_size := n; stable_start := Some t1 |} (mid ++ rest)
    = gate_loop period {| last_size := n; stable_start := Some t1 |} rest.
Proof.
  intros Hmid Hn rest.
  induction Hmid as [|m mid [[Hm|Hm] Hlate] _ IH]; [reflexivity| |].
  - simpl. unfold poll. rewrite Hm.
    destruct (n =? 0) eqn:Hz; [apply Z.eqb_eq in Hz; contradiction|].
    simpl. rewrite Z.eqb_refl. simpl. rewrite Hlate, andb_false_r. exact IH.
  - simpl. rewrite (poll_zero _ _ _ Hm). exact IH.
Qed.

(** X3. A file first polled at a non-zero size [n] at time [t1] is
    declared stable at the first later poll of size [n] that lies at least
    the stable period after [t1], provided every poll in between is of size
    [n] or zero and lies less than the period after [t1].  (The reading
    [t1] must not be 0.0, which the test [stable_start and ...] takes for
    unset; sizes are never -1, the initial [last_size].) *)
Theorem stable_once_period_elapsed (period : Q) (n : Z) (t1 t2 : Q)
    (mid rest : list sample)
    (Hn : n <> 0) (Hinit : n <> -1)
    (Ht1 : ~ (t1 == 0)%Q)
    (Hmid : Forall (fun m => quiet n m
                             /\ Qle_bool period (current_time m - t1) = false) mid)
    (Hlate : (period <= t2 - t1)%Q) :
  is_file_stable (observed n t1 :: mid ++ observed n t2 :: rest) period
    = Some (Ok true).
Proof.
  unfold is_file_stable. simpl. unfold poll at 1. simpl.
  destruct (n =? 0) eqn:Hz; [apply Z.eqb_eq in Hz; contradiction|].
  destruct (n =? -1) eqn:Hi; [apply Z.eqb_eq in Hi; contradiction|].
  simpl. rewrite (gate_loop_waits period n t1 mid Hmid Hn).
  simpl. unfold poll. simpl. rewrite Hz, Z.eqb_refl. simpl.
  apply Qle_bool_iff in Hlate. rewrite Hlate.
  destruct (Qeq_bool t1 0) eqn:Hq; [apply Qeq_bool_iff in Hq; contradiction|].
  reflexivity.
Qed.

Lemma stable_once_period_elapsed_witness :
  is_file_stable
    (observed 4096 100 :: [observed 4096 101; observed 0 (203 # 2)]
       ++ observed 4096 102 :: [observed 5000 103])
    default_stable_period
  = Some (Ok true).
Proof.
  apply stable_once_period_elapsed.
  - discriminate.
  - discriminate.
  - intros H. unfold Qeq in H. simpl in H. lia.
  - constructor; [split; [now left | reflexivity]|].
    constructor; [split; [now right | reflexivity]|]. constructor.
  - unfold Qle. simpl. lia.
Defined.

(** X4. The polls that find the file empty have no part in the verdict:
    [is_file_stable] decides on any observations as it decides on the
    same observations without the polls of size zero. *)
Theorem empty_polls_do_not_count (period : Q) (obs : list sample) :
  is_file_stable obs period
  = is_file_stable (List.filter (fun s => negb (found_empty s)) obs) period.
Proof.
  unfold is_file_stable. apply zero_samples_are_ignored.
Qed.

(* ===================================================================== *)
(** ** File names: listing, payload names, page numbers                   *)
(* ===================================================================== *)

Lemma str_leb_refl (a : pystr) : str_leb a a = true.
Proof.
  induction a as [|c a IH]; simpl; [reflexivity|].
  now rewrite N.ltb_irrefl.
Qed.

Lemma str_leb_antisym (a b : pystr) :
  str_leb a b = true -> str_leb b a = true -> a = b.
Proof.
  revert b. induction a as [|c a IH]; intros [|d b]; simpl; try discriminate;
    [reflexivity|].
  destruct (c <? d)%N eqn:Hcd, (d <? c)%N eqn:Hdc; try discriminate.
  - apply N.ltb_lt in Hcd, Hdc. lia.
  - intros Hab Hba. apply N.ltb_ge in Hcd, Hdc.
    assert (c = d) by lia. subst. f_equal. now apply IH.
Qed.

Lemma str_leb_trans (a b c : pystr) :
  str_leb a b = true -> str_leb b c = true -> str_leb a c = true.
Proof.
  revert b c. induction a as [|x a IH]; intros [|y b] [|z c]; simpl;
    try discriminate; try reflexivity.
  destruct (x <? y)%N eqn:Hxy, (y <? x)%N eqn:Hyx; try discriminate;
    destruct (y <? z)%N eqn:Hyz, (z <? y)%N eqn:Hzy; try discriminate;
    destruct (x <? z)%N eqn:Hxz, (z <? x)%N eqn:Hzx; try reflexivity;
    repeat match goal with
           | [ H : (_ <? _)%N = true |- _ ] => apply N.ltb_lt in H
           | [ H : (_ <? _)%N = false |- _ ] => apply N.ltb_ge in H
           end; try lia.
  intros Hab Hbc. now apply (IH b c).
Qed.

Lemma insert_sorted_comm (x y : pystr) (l : list pystr) :
  insert_sorted x (insert_sorted y l) = insert_sorted y (insert_sorted x l).
Proof.
  induction l as [|z l IH]; simpl.
  - destruct (str_leb x y) eqn:Hxy, (str_leb y x) eqn:Hyx; try reflexivity.
    + now rewrite (str_leb_antisym x y).
    + apply str_leb_total in Hxy. congruence.
  - destruct (str_leb y z) eqn:Hyz, (str_leb x z) eqn:Hxz; simpl;
      rewrite ?Hyz, ?Hxz.
    + destruct (str_leb x y) eqn:Hxy, (str_leb y x) eqn:Hyx; try reflexivity.
      * now rewrite (str_leb_antisym x y).
      * apply str_leb_total in Hxy. congruence.
    + destruct (str_leb x y) eqn:Hxy; [|reflexivity].
      rewrite (str_leb_trans x y z) in Hxz by assumption. discriminate.
    + destruct (str_leb y x) eqn:Hyx; [|reflexivity].
      rewrite (str_leb_trans y x z) in Hyz by assumption. discriminate.
    + now rewrite IH.
Qed.

(** X5. [sorted] does not depend on the order in which [os.listdir]
    reports the names: two listings of the same names are sorted to the
    same list. *)
Theorem sorted_ignores_listing_order (l l' : list pystr)
    (Hperm : Permutation l l') :
  sorted l = sorted l'.
Proof.
  unfold sorted.
  induction Hperm as [|x l l' _ IH|x y l|l l' l'' _ IH1 _ IH2]; simpl.
  - reflexivity.
  - now rewrite IH.
  - apply insert_sorted_comm.
  - now rewrite IH1.
Qed.

Lemma sorted_ignores_listing_order_witness :
  sorted [lit "output-1.jpg"; lit "output-0.jpg"; lit "output-2.jpg"]
  = sorted [lit "output-2.jpg"; lit "output-1.jpg"; lit "output-0.jpg"].
Proof.
  apply sorted_ignores_listing_order.
  apply perm_trans with [lit "output-1.jpg"; lit "output-2.jpg"; lit "output-0.jpg"].
  - apply perm_skip, perm_swap.
  - apply perm_trans with [lit "output-2.jpg"; lit "output-1.jpg"; lit "output-0.jpg"].
    + apply perm_swap.
    + apply Permutation_refl.
Defined.

Lemma insert_sorted_perm (x : pystr) (l : list pystr) :
  Permutation (insert_sorted x l) (x :: l).
Proof.
  induction l as [|y l IH]; simpl; [reflexivity|].
  destruct (str_leb x y); [reflexivity|].
  rewrite IH. apply perm_swap.
Qed.

Lemma sorted_perm (l : list pystr) : Permutation (sorted l) l.
Proof.
  unfold sorted. induction l as [|x l IH]; simpl; [reflexivity|].
  now rewrite insert_sorted_perm, IH.
Qed.

Lemma NoDup_list_filter (f : pystr -> bool) (l : list pystr) :
  NoDup l -> NoDup (List.filter f l).
Proof.
  induction 1 as [|x l Hx _ IH]; simpl; [constructor|].
  destruct (f x); [|exact IH].
  constructor; [|exact IH].
  intros Hin. apply Hx. apply list_elem_of_In in Hin. apply filter_In in Hin.
  now apply list_elem_of_In.
Qed.

(** X6. The listing that both stages start from
    ([sorted([f for f in os.listdir(...) if f.startswith('output-') and
    f.endswith(ext)])]) holds exactly the entries of the directory whose
    name starts with [output-] and ends with the extension, each once, in
    ascending order of strings; it leaves the directory as it is. *)
Theorem list_outputs_complete (ext : pystr) (fs : directory) :
  exists names : list pystr,
    list_outputs ext fs = (Ok names, fs)
    /\ (forall f, In f names <-> is_Some (fs !! f) /\ is_output ext f = true)
    /\ NoDup names
    /\ Sorted (fun a b => str_leb a b = true) names.
Proof.
  eexists. split; [reflexivity|].
  split; [|split].
  - intros f. rewrite In_sorted, filter_In.
    rewrite <- list_elem_of_In, list_elem_of_fmap.
    split.
    + intros [([f' n] & -> & Hin) Hout]. split; [|exact Hout].
      apply elem_of_map_to_list in Hin. simpl. eauto.
    + intros [[n Hn] Hout]. split; [|exact Hout].
      exists (f, n). split; [reflexivity|]. now apply elem_of_map_to_list.
  - rewrite sorted_perm.
    apply NoDup_list_filter, NoDup_fst_map_to_list.
  - apply sorted_Sorted.
Qed.

Lemma startswith_inv (s p : pystr) :
  startswith s p = true -> exists t, s = p ++ t.
Proof.
  revert s. induction p as [|c p IH]; intros s H; simpl in H.
  - now exists s.
  - destruct s as [|d s]; [discriminate|].
    apply andb_prop in H as [Hc H]. apply N.eqb_eq in Hc. subst d.
    destruct (IH s H) as [t ->]. now exists t.
Qed.

Lemma startswith_nil (s : pystr) : startswith s [] = true.
Proof. now destruct s. Qed.

Lemma startswith_app (p t : pystr) : startswith (p ++ t) p = true.
Proof.
  induction p as [|c p IH]; simpl; [now destruct t|].
  now rewrite N.eqb_refl.
Qed.

Lemma endswith_inv (s p : pystr) :
  endswith s p = true -> exists t, s = t ++ p.
Proof.
  unfold endswith. intros H. apply startswith_inv in H as [t Ht].
  exists (rev t). apply (f_equal (@rev N)) in Ht.
  now rewrite rev_involutive, rev_app_distr, rev_involutive in Ht.
Qed.

Lemma endswith_app (t p : pystr) : endswith (t ++ p) p = true.
Proof. unfold endswith. rewrite rev_app_distr. apply startswith_app. Qed.

(** While the replacement walks over a name that ends in ['.jpg'], the
    characters still to be skipped are the rest of an occurrence, so the
    last occurrence is always reached with nothing to skip and the result
    ends in ['.b64']. *)
Lemma replace_from_jpg_suffix (s : pystr) :
  forall k : nat,
    (k <= 3)%nat ->
    startswith (s ++ lit ".jpg") (jpg_tail k) = true ->
    exists pre,
      replace_from (lit ".jpg") (lit ".b64") k (s ++ lit ".jpg")
      = pre ++ lit ".b64".
Proof.
  change (lit ".jpg") with [46; 106; 112; 103]%N.
  change (lit ".b64") with [46; 98; 54; 52]%N.
  induction s as [|c s IH]; intros k Hk Htail.
  - destruct k as [|[|[|[|k]]]]; try lia; try discriminate.
    now exists [].
  - destruct k as [|k].
    + cbn [app replace_from].
      destruct (startswith (c :: s ++ [46; 106; 112; 103]%N) [46; 106; 112; 103]%N)
        eqn:Hocc.
      * cbn [startswith] in Hocc. apply andb_prop in Hocc as [_ Hocc].
        destruct (IH 3%nat ltac:(lia) Hocc) as [pre Hpre].
        exists ([46; 98; 54; 52]%N ++ pre).
        cbn [length Nat.pred]. rewrite Hpre. now rewrite <- app_assoc.
      * destruct (IH 0%nat ltac:(lia) (startswith_nil _)) as [pre Hpre].
        exists (c :: pre). now rewrite Hpre.
    + cbn [app replace_from].
      assert (Hnext : startswith (s ++ [46; 106; 112; 103]%N) (jpg_tail k) = true).
      { destruct k as [|[|[|k]]]; try lia;
          [apply startswith_nil | |];
          cbn [jpg_tail app startswith] in Htail |- *;
          now apply andb_prop in Htail as [_ Htail]. }
      apply (IH k ltac:(lia) Hnext).
Qed.

(** X7. The payload name of a listed page image is itself listed by the
    recognition stage: if a name starts with [output-] and ends with
    [.jpg], the name that [replace('.jpg', '.b64')] makes of it starts
    with [output-] and ends with [.b64]. *)
Theorem payload_name_is_listed (jpg_file : pystr)
    (Hjpg : is_output (lit ".jpg") jpg_file = true) :
  is_output (lit ".b64") (b64_name jpg_file) = true.
Proof.
  unfold is_output in *. apply andb_prop in Hjpg as [Hstart Hsuf].
  apply andb_true_intro. split; [now apply b64_name_prefix|].
  apply endswith_inv in Hsuf as [s ->].
  destruct (replace_from_jpg_suffix s 0 ltac:(lia) (startswith_nil _))
    as [pre Hpre].
  unfold b64_name, replace. rewrite Hpre. apply endswith_app.
Qed.

Lemma payload_name_is_listed_witness :
  is_output (lit ".b64") (b64_name (lit "output-3.jpg.jpg")) = true.
Proof.
  apply payload_name_is_listed. reflexivity.
Defined.

(** What a decimal digit is not. *)
Lemma digit_is_plain (c : N) :
  is_digit c = true ->
  (c =? 43)%N = false /\ (c =? 45)%N = false /\ (c =? 46)%N = false
  /\ (c =? 95)%N = false /\ isspace c = false
  /\ digit_of c = Some (Z.of_N c - 48).
Proof.
  unfold is_digit. intros H.
  assert (Hd : digit_of c = Some (Z.of_N c - 48)).
  { unfold digit_of, decimal_zeros. cbn [List.find]. cbn [N.add Pos.add] in *.
    change (48 + 9)%N with 57%N. rewrite H. cbn [option_map].
    apply andb_prop in H as [Hlo Hhi]. apply N.leb_le in Hlo, Hhi.
    f_equal. lia. }
  apply andb_prop in H as [Hlo Hhi]. apply N.leb_le in Hlo, Hhi.
  repeat split; try (apply N.eqb_neq; lia); try exact Hd.
  unfold isspace.
  replace (c <=? 13)%N with false by (symmetry; apply N.leb_gt; lia).
  replace (c <=? 32)%N with false by (symmetry; apply N.leb_gt; lia).
  replace (8192 <=? c)%N with false by (symmetry; apply N.leb_gt; lia).
  replace (c =? 133)%N with false by (symmetry; apply N.eqb_neq; lia).
  replace (c =? 160)%N with false by (symmetry; apply N.eqb_neq; lia).
  replace (c =? 5760)%N with false by (symmetry; apply N.eqb_neq; lia).
  replace (c =? 8232)%N with false by (symmetry; apply N.eqb_neq; lia).
  replace (c =? 8233)%N with false by (symmetry; apply N.eqb_neq; lia).
  replace (c =? 8239)%N with false by (symmetry; apply N.eqb_neq; lia).
  replace (c =? 8287)%N with false by (symmetry; apply N.eqb_neq; lia).
  replace (c =? 12288)%N with false by (symmetry; apply N.eqb_neq; lia).
  now rewrite !andb_false_r.
Qed.

Lemma replace_digits (digits : pystr) :
  forallb is_digit digits = true ->
  replace_from (lit ".jpg") (lit ".b64") 0 (digits ++ lit ".jpg")
  = digits ++ lit ".b64".
Proof.
  change (lit ".jpg") with [46; 106; 112; 103]%N.
  change (lit ".b64") with [46; 98; 54; 52]%N.
  induction digits as [|c ds IH]; intros Hds; [reflexivity|].
  simpl in Hds. apply andb_prop in Hds as [Hc Hds].
  destruct (digit_is_plain c Hc) as (_ & _ & Hdot & _).
  cbn [app replace_from startswith].
  rewrite N.eqb_sym, Hdot. cbn [andb]. now rewrite IH.
Qed.

Lemma split_without_sep (sep : N) (s : pystr) :
  forallb (fun c => negb (c =? sep)%N) s = true -> split sep s = [s].
Proof.
  induction s as [|c s IH]; intros H; [reflexivity|].
  simpl in H. apply andb_prop in H as [Hc H]. apply negb_true_iff in Hc.
  simpl. now rewrite Hc, IH.
Qed.

Lemma split_at_first_sep (sep : N) (a b : pystr) :
  forallb (fun c => negb (c =? sep)%N) a = true ->
  split sep (a ++ sep :: b) = a :: split sep b.
Proof.
  induction a as [|c a IH]; intros H.
  - simpl. now rewrite N.eqb_refl.
  - simpl in H. apply andb_prop in H as [Hc H]. apply negb_true_iff in Hc.
    simpl. now rewrite Hc, IH.
Qed.

Lemma digits_from_digits (digits : pystr) :
  forallb is_digit digits = true ->
  forall acc after_digit,
    digits <> [] \/ after_digit = true ->
    digits_from acc after_digit digits
    = Some (fold_left (fun acc c => 10 * acc + (Z.of_N c - 48)) digits acc).
Proof.
  induction digits as [|c ds IH]; intros Hds acc after_digit Hok.
  - destruct Hok as [Hne| ->]; [congruence | reflexivity].
  - simpl in Hds. apply andb_prop in Hds as [Hc Hds].
    destruct (digit_is_plain c Hc) as (_ & _ & _ & Hu & _ & Hd).
    cbn [digits_from fold_left]. rewrite Hu, Hd. apply IH; [exact Hds | now right].
Qed.

Lemma lstrip_digits (digits : pystr) :
  forallb is_digit digits = true -> lstrip digits = digits.
Proof.
  destruct digits as [|c ds]; [reflexivity|]. simpl. intros H.
  apply andb_prop in H as [Hc _].
  destruct (digit_is_plain c Hc) as (_ & _ & _ & _ & Hsp & _). now rewrite Hsp.
Qed.

Lemma strip_digits (digits : pystr) :
  forallb is_digit digits = true -> strip digits = digits.
Proof.
  intros H. unfold strip, rstrip. rewrite (lstrip_digits _ H).
  rewrite lstrip_digits; [apply rev_involutive|].
  apply forallb_forall. intros c Hc. apply in_rev in Hc.
  rewrite forallb_forall in H. now apply H.
Qed.

Lemma py_int_digits (digits : pystr) :
  digits <> [] -> forallb is_digit digits = true ->
  py_int digits = Some (decimal_value digits).
Proof.
  intros Hne Hds. unfold py_int. rewrite (strip_digits _ Hds).
  destruct digits as [|c ds]; [congruence|].
  pose proof Hds as Hds'. simpl in Hds'. apply andb_prop in Hds' as [Hc _].
  destruct (digit_is_plain c Hc) as (Hplus & Hminus & _).
  rewrite Hplus, Hminus. apply digits_from_digits; [exact Hds | now left].
Qed.

Lemma digits_have_no (sep : N) (digits : pystr) :
  (sep < 48)%N ->
  forallb is_digit digits = true ->
  forallb (fun c => negb (c =? sep)%N) digits = true.
Proof.
  intros Hsep Hds. apply forallb_forall. intros c Hc.
  rewrite forallb_forall in Hds. specialize (Hds c Hc).
  unfold is_digit in Hds. apply andb_prop in Hds as [Hlo _].
  apply N.leb_le in Hlo. apply negb_true_iff, N.eqb_neq. lia.
Qed.

(** X8. The page number survives the names: for a page image named by the
    pattern [output-%d.jpg] with a non-empty string of decimal digits, the
    image is listed, its payload is named [output-<digits>.b64], and the
    recognition stage parses from that name the number that the digits
    write. *)
Theorem page_number_round_trip (digits : pystr)
    (Hne : digits <> [])
    (Hdigits : forallb is_digit digits = true) :
  is_output (lit ".jpg") (output_jpg digits) = true
  /\ b64_name (output_jpg digits) = lit "output-" ++ digits ++ lit ".b64"
  /\ page_number_of (b64_name (output_jpg digits)) = Ok (decimal_value digits).
Proof.
  assert (Hname : b64_name (output_jpg digits)
                  = lit "output-" ++ digits ++ lit ".b64").
  { unfold b64_name, replace, output_jpg.
    change (lit "output-") with [111; 117; 116; 112; 117; 116; 45]%N.
    pose proof (replace_digits digits Hdigits) as Hrep.
    change (lit ".jpg") with [46; 106; 112; 103]%N in *.
    cbn [app replace_from startswith N.eqb Pos.eqb andb]. now rewrite Hrep. }
  split; [|split; [exact Hname|]].
  - unfold is_output, output_jpg. rewrite startswith_app.
    rewrite app_assoc. now rewrite endswith_app.
  - rewrite Hname. unfold page_number_of.
    change (lit "output-") with ([111; 117; 116; 112; 117; 116]%N ++ [45%N]).
    rewrite <- app_assoc. cbn [app].
    change (111 :: 117 :: 116 :: 112 :: 117 :: 116 :: 45 :: digits ++ lit ".b64")%N
      with ([111; 117; 116; 112; 117; 116]%N ++ 45%N :: digits ++ lit ".b64").
    rewrite split_at_first_sep by reflexivity.
    change (lit ".b64") with (46%N :: [98; 54; 52]%N).
    rewrite split_without_sep.
    + cbn [index lookup list_lookup of_option result_bind].
      rewrite split_at_first_sep by (apply digits_have_no; [lia | exact Hdigits]).
      cbn [index lookup list_lookup of_option result_bind].
      now rewrite py_int_digits.
    + rewrite forallb_app. rewrite (digits_have_no 45) by (lia || exact Hdigits).
      reflexivity.
Qed.

Lemma page_number_round_trip_witness :
  is_output (lit ".jpg") (output_jpg (lit "10")) = true
  /\ b64_name (output_jpg (lit "10")) = lit "output-" ++ lit "10" ++ lit ".b64"
  /\ page_number_of (b64_name (output_jpg (lit "10"))) = Ok (decimal_value (lit "10")).
Proof.
  apply page_number_round_trip; [discriminate | reflexivity].
Defined.

(* ===================================================================== *)
(** ** EncodingStage: the payload text                                    *)
(* ===================================================================== *)

Lemma table_b2a_in_alphabet (v : N) :
  (v < 64)%N -> In (table_b2a_base64 v) b64_alphabet.
Proof.
  intros Hv. unfold table_b2a_base64. apply nth_In.
  change (length b64_alphabet) with 64%nat. lia.
Qed.

(** X9. The payload of an image of [n] bytes has [4 * ceil(n / 3)]
    characters, each a character of the base64 alphabet or the pad [=]. *)
Theorem payload_shape (data : list byte) :
  length (b64encode data) = (4 * ((length data + 2) / 3))%nat
  /\ Forall (fun c => c = BASE64_PAD \/ In c b64_alphabet) (b64encode data).
Proof.
  assert (Hchar : forall v, (v < 64)%N ->
            table_b2a_base64 v = BASE64_PAD \/ In (table_b2a_base64 v) b64_alphabet)
    by (intros v Hv; right; now apply table_b2a_in_alphabet).
  assert (Hpad : BASE64_PAD = BASE64_PAD \/ In BASE64_PAD b64_alphabet)
    by now left.
  induction data as [|a|a b|a b c rest [IHlen IHall]] using list_ind3.
  - split; [reflexivity | constructor].
  - pose proof (group_heads_ok _ 0 (to_N_below a) eq_refl) as Hh.
    unfold group_head_ok in Hh. cbv zeta in Hh. split_checks Hh. to_props.
    split; [reflexivity|]. cbn [b64encode].
    constructor; [now apply Hchar|].
    constructor; [now apply Hchar|].
    constructor; [exact Hpad|].
    constructor; [exact Hpad|]. constructor.
  - pose proof (group_heads_ok _ _ (to_N_below a) (to_N_below b)) as Hh.
    pose proof (group_tails_ok _ 0 (to_N_below b) eq_refl) as Ht.
    unfold group_head_ok in Hh. unfold group_tail_ok in Ht.
    cbv zeta in Hh, Ht. split_checks Hh. split_checks Ht. to_props.
    split; [reflexivity|]. cbn [b64encode].
    constructor; [now apply Hchar|].
    constructor; [now apply Hchar|].
    constructor; [now apply Hchar|].
    constructor; [exact Hpad|]. constructor.
  - pose proof (group_heads_ok _ _ (to_N_below a) (to_N_below b)) as Hh.
    pose proof (group_tails_ok _ _ (to_N_below b) (to_N_below c)) as Ht.
    unfold group_head_ok in Hh. unfold group_tail_ok in Ht.
    cbv zeta in Hh, Ht. split_checks Hh. split_checks Ht. to_props.
    split.
    + cbn [b64encode length]. rewrite IHlen.
      replace (S (S (S (length rest))) + 2)%nat with (length rest + 2 + 1 * 3)%nat
        by lia.
      rewrite Nat.div_add by discriminate. lia.
    + cbn [b64encode].
      constructor; [now apply Hchar|].
      constructor; [now apply Hchar|].
      constructor; [now apply Hchar|].
      constructor; [now apply Hchar|]. exact IHall.
Qed.

(** X10. Different images never share a payload text: the payload
    determines the bytes of the image. *)
Theorem payloads_identify_images (a b : list byte) (Hdiff : a <> b) :
  b64encode a <> b64encode b.
Proof.
  intros Heq. apply Hdiff.
  pose proof (a2b_b64encode a []) as Ha. pose proof (a2b_b64encode b []) as Hb.
  rewrite Heq, Hb in Ha. simpl in Ha. congruence.
Qed.

Lemma payloads_identify_images_witness :
  b64encode (bytes_of "first") <> b64encode (bytes_of "firsu").
Proof.
  apply payloads_identify_images. discriminate.
Defined.

(* ===================================================================== *)
(** ** RecognitionStage: identifiers and trimmed text                     *)
(* ===================================================================== *)

Lemma imap_ids {A B} (g : B -> nat) (l : list A) :
  forall (f : nat -> A -> B) (k : nat),
    (forall i a, g (f i a) = (k + i)%nat) ->
    List.map g (imap f l) = seq k (length l).
Proof.
  induction l as [|a l IH]; intros f k Hf; simpl; [reflexivity|].
  rewrite Hf, Nat.add_0_r. f_equal.
  apply IH. intros i a'. unfold compose. rewrite Hf. lia.
Qed.

(** X11. The identifiers in a built page are positions: the blocks of
    every page of the annotation are numbered from 0 (the numbering starts
    again on each page of the annotation), and within every block the
    paragraphs, within every paragraph the words, are numbered
    0, 1, 2, ... in their order. *)
Theorem ids_are_positions (page_num : Z) (r : Response) :
  List.map block_id (blocks (build_page_data page_num r))
    = flat_map (fun page => seq 0 (length (page_blocks page))) (response_pages r)
  /\ Forall
       (fun bd => List.map paragraph_id (bd_paragraphs bd)
                  = seq 0 (length (bd_paragraphs bd)))
       (blocks (build_page_data page_num r))
  /\ Forall
       (fun pd => List.map word_id (pd_words pd) = seq 0 (length (pd_words pd)))
       (paragraphs_of (build_page_data page_num r)).
Proof.
  split; [|split].
  - unfold build_page_data, build_blocks. cbn [blocks].
    induction (response_pages r) as [|page pages IH]; simpl; [reflexivity|].
    rewrite List.map_app, IH. f_equal.
    now apply imap_ids.
  - apply Forall_forall. intros bd Hbd.
    unfold build_page_data, build_blocks in Hbd. cbn [blocks] in Hbd.
    apply list_elem_of_In, in_flat_map in Hbd. destruct Hbd as (page & _ & Hbd).
    rewrite <- list_elem_of_In in Hbd. apply elem_of_lookup_imap_1 in Hbd.
    destruct Hbd as (i & b & -> & _). cbn [build_block bd_paragraphs].
    rewrite length_imap. apply imap_ids. intros k p.
    unfold build_paragraph. now destruct (words_loop _ _ _ _).
  - apply Forall_forall. intros pd Hpd.
    unfold paragraphs_of, build_page_data, build_blocks in Hpd. cbn [blocks] in Hpd.
    apply list_elem_of_In, in_flat_map in Hpd. destruct Hpd as (bd & Hbd & Hpd).
    apply in_flat_map in Hbd. destruct Hbd as (page & _ & Hbd).
    rewrite <- list_elem_of_In in Hbd. rewrite <- list_elem_of_In in Hpd.
    apply elem_of_lookup_imap_1 in Hbd. destruct Hbd as (i & b & -> & _).
    cbn [build_block bd_paragraphs] in Hpd.
    apply elem_of_lookup_imap_1 in Hpd. destruct Hpd as (j & p & -> & _).
    rewrite build_paragraph_words, length_imap. now apply imap_ids.
Qed.

Lemma lstrip_idempotent (s : pystr) : lstrip (lstrip s) = lstrip s.
Proof.
  induction s as [|c s IH]; simpl; [reflexivity|].
  destruct (isspace c) eqn:Hc; [exact IH|]. simpl. now rewrite Hc.
Qed.

Lemma lstrip_snoc_nonspace (w : pystr) (c : N) :
  isspace c = false -> lstrip (w ++ [c]) = lstrip w ++ [c].
Proof.
  intros Hc. induction w as [|d w IH]; simpl; [now rewrite Hc|].
  destruct (isspace d); [exact IH | reflexivity].
Qed.

Lemma rstrip_cons_nonspace (c : N) (s : pystr) :
  isspace c = false -> rstrip (c :: s) = c :: rstrip s.
Proof.
  intros Hc. unfold rstrip. simpl.
  rewrite (lstrip_snoc_nonspace _ _ Hc). now rewrite rev_unit.
Qed.

Lemma rstrip_idempotent (s : pystr) : rstrip (rstrip s) = rstrip s.
Proof. unfold rstrip. now rewrite rev_involutive, lstrip_idempotent. Qed.

Lemma strip_is_trimmed (s : pystr) :
  lstrip (strip s) = strip s /\ rstrip (strip s) = strip s.
Proof.
  unfold strip. split; [|apply rstrip_idempotent].
  destruct (lstrip s) as [|c u] eqn:Hl; [reflexivity|].
  assert (Hc : isspace c = false).
  { pose proof (lstrip_idempotent s) as Hi. rewrite Hl in Hi. simpl in Hi.
    destruct (isspace c); [|reflexivity].
    exfalso. apply (f_equal (@length N)) in Hi. simpl in Hi.
    assert (Hle : forall t : pystr, (length (lstrip t) <= length t)%nat).
    { induction t as [|d t IHt]; simpl; [lia|].
      destruct (isspace d); simpl; lia. }
    specialize (Hle u). lia. }
  rewrite (rstrip_cons_nonspace _ _ Hc). simpl. now rewrite Hc.
Qed.

(** X12. The text of every paragraph of a built page is trimmed: it
    neither starts nor ends with a whitespace character (stripping it
    again on either side changes nothing), and a paragraph without words
    has the empty text. *)
Theorem paragraph_text_is_trimmed (page_num : Z) (r : Response) :
  Forall
    (fun pd =>
       lstrip (pd_text pd) = pd_text pd
       /\ rstrip (pd_text pd) = pd_text pd
       /\ (pd_words pd = [] -> pd_text pd = []))
    (paragraphs_of (build_page_data page_num r)).
Proof.
  apply Forall_forall. intros pd Hpd.
  unfold paragraphs_of, build_page_data, build_blocks in Hpd. cbn [blocks] in Hpd.
  apply list_elem_of_In, in_flat_map in Hpd. destruct Hpd as (bd & Hbd & Hpd).
  apply in_flat_map in Hbd. destruct Hbd as (page & _ & Hbd).
  rewrite <- list_elem_of_In in Hbd. rewrite <- list_elem_of_In in Hpd.
  apply elem_of_lookup_imap_1 in Hbd. destruct Hbd as (i & b & -> & _).
  cbn [build_block bd_paragraphs] in Hpd.
  apply elem_of_lookup_imap_1 in Hpd. destruct Hpd as (j & p & -> & _).
  rewrite build_paragraph_text, build_paragraph_words.
  destruct (strip_is_trimmed
              (flat_map (fun w => word_text_of w ++ lit " ") (paragraph_words p)))
    as [Hl Hr].
  repeat split; [exact Hl | exact Hr |].
  intros Hnone. destruct (paragraph_words p); [reflexivity | discriminate].
Qed.

(* ===================================================================== *)
(** ** RecognitionStage: what an exception leaves behind                  *)
(* ===================================================================== *)

Lemma ocr_page_keeps (env : Env) (b64_file : pystr) (acc : accs) (fs : directory) :
  snd (ocr_page env b64_file acc fs) = fs.
Proof.
  rewrite ocr_page_recognise.
  destruct (recognise env fs b64_file) as [[n r]|e]; [|reflexivity].
  now destruct (nonempty (error_message r)).
Qed.

Lemma pages_loop_keeps (env : Env) (b64_files : list pystr) :
  forall (acc : accs) (fs : directory),
    snd (pages_loop env b64_files acc fs) = fs.
Proof.
  induction b64_files as [|f l IH]; intros acc fs; simpl; [reflexivity|].
  unfold bind. pose proof (ocr_page_keeps env f acc fs) as Hk.
  destruct (ocr_page env f acc fs) as [[acc'|e] fs0]; simpl in Hk; subst fs0;
    [apply IH | reflexivity].
Qed.

Lemma pages_loop_raises (env : Env) (fs : directory) (f : pystr)
    (rest : list pystr) (e : exn) :
  recognise env fs f = Raise e ->
  forall done recognised acc,
    Forall2 (fun f nr => recognise env fs f = Ok nr) done recognised ->
    pages_loop env (done ++ f :: rest) acc fs = (Raise e, fs).
Proof.
  intros Hf done recognised acc Hall. revert acc.
  induction Hall as [|f0 [n r] fl rl Hf0 _ IH]; intros acc; simpl; unfold bind.
  - now rewrite ocr_page_recognise, Hf.
  - rewrite ocr_page_recognise, Hf0.
    destruct (nonempty (error_message r)); apply IH.
Qed.

(** X13. An exception while a page is read, decoded or sent to the
    service ends [extract_text_from_b64_images] at that page, and nothing
    is written: the text file, the structured JSON and the timing file are
    left as they were, also for the pages that were recognised before. *)
Theorem extraction_error_writes_nothing
    (env : Env) (fs : directory) (done rest : list pystr) (f : pystr)
    (recognised : list (Z * Response)) (e : exn)
    (Hlisted : fst (list_outputs (lit ".b64") fs) = Ok (done ++ f :: rest))
    (Hclient : make_client env = Ok tt)
    (Hdone : Forall2 (fun f nr => recognise env fs f = Ok nr) done recognised)
    (Hraise : recognise env fs f = Raise e) :
  extract_text_from_b64_images env fs = (Raise e, fs).
Proof.
  unfold extract_text_from_b64_images. unfold bind at 1.
  unfold list_outputs, bind, listdir, ret in Hlisted |- *. simpl in Hlisted |- *.
  injection Hlisted as Hlisted. rewrite Hlisted.
  destruct (done ++ f :: rest) as [|f0 fl] eqn:Happ; [now destruct done|].
  rewrite <- Happ. unfold lift. rewrite Hclient.
  now rewrite (pages_loop_raises env fs f rest e Hraise done recognised).
Qed.

Lemma extraction_error_writes_nothing_witness :
  extract_text_from_b64_images unreachable_service_env three_payloads
  = (Raise ServiceException, three_payloads).
Proof.
  apply (extraction_error_writes_nothing unreachable_service_env three_payloads
           [] [lit "output-2.b64"; lit "output-3.b64"] (lit "output-1.b64") []).
  - vm_compute. reflexivity.
  - reflexivity.
  - constructor.
  - vm_compute. reflexivity.
Defined.

Lemma filter_none {A} (f : A -> bool) (l : list A) :
  (forall a, In a l -> f a = false) -> List.filter f l = [].
Proof.
  induction l as [|a l IH]; intros H; simpl; [reflexivity|].
  rewrite (H a) by now left. apply IH. intros a' Ha'. apply H. now right.
Qed.

Lemma list_outputs_none (ext : pystr) (fs : directory) :
  (forall f n, fs !! f = Some n -> is_output ext f = false) ->
  list_outputs ext fs = (Ok [], fs).
Proof.
  intros Hnone. unfold list_outputs, bind, listdir, ret.
  rewrite filter_none; [reflexivity|].
  intros f Hf. apply list_elem_of_In, list_elem_of_fmap in Hf.
  destruct Hf as ([f' n] & -> & Hin). apply elem_of_map_to_list in Hin.
  now apply (Hnone f' n).
Qed.

(** X14. Without any payload file in the directory
    [extract_text_from_b64_images] returns at once: no client is created
    and no artifact is written, not even empty ones. *)
Theorem no_payloads_nothing_written (env : Env) (fs : directory)
    (Hnone : forall f n, fs !! f = Some n -> is_output (lit ".b64") f = false) :
  extract_text_from_b64_images env fs = (Ok tt, fs).
Proof.
  unfold extract_text_from_b64_images. unfold bind at 1.
  now rewrite (list_outputs_none _ _ Hnone).
Qed.

Lemma no_payloads_nothing_written_witness :
  extract_text_from_b64_images unreachable_service_env input_only_dir
  = (Ok tt, input_only_dir).
Proof.
  apply no_payloads_nothing_written.
  intros f n Hf.
  destruct (decide (f = lit "input.pdf")) as [->|Hne]; [reflexivity|].
  unfold input_only_dir in Hf.
  rewrite lookup_insert_ne in Hf by congruence. now rewrite lookup_empty in Hf.
Defined.

(* ===================================================================== *)
(** ** PipelineOrchestrator: how a run ends                               *)
(* ===================================================================== *)

(** A run whose input is stable and present: the conversion block runs
    inside its handler, and the [finally] block follows. *)
Lemma process_pdf_stable (env : Env) (fs : directory) :
  is_file_stable (samples env) default_stable_period = Some (Ok true) ->
  is_Some (fs !! input_file) ->
  process_pdf env fs =
    Some (snd (save_overall_timing env
                 (snd (try_except (convert_and_extract env) (fun _ => ret tt) fs)))).
Proof.
  intros Hgate [n Hin]. unfold process_pdf. rewrite Hgate. f_equal.
  unfold process_after_gate, pipeline.
  unfold bind at 1. unfold try_except at 1. unfold bind at 1. unfold lift.
  cbn [negb]. unfold bind at 1. unfold getsize at 1. rewrite Hin.
  unfold try_except, ret.
  now destruct (convert_and_extract env fs) as [[[]|e] fs0].
Qed.

(** X15. When the conversion fails (the subprocess raises, for instance
    on its timeout, or [convert] exits with a code other than 0, such as
    124), the run ends there: the directory is as the conversion left it,
    plus the overall timing file; no page image is listed or encoded and
    no page is recognised. *)
Theorem conversion_failure_ends_run (env : Env) (fs fs1 : directory)
    (outcome : result Z)
    (Hgate : is_file_stable (samples env) default_stable_period = Some (Ok true))
    (Hinput : is_Some (fs !! input_file))
    (Hconvert : convert env fs = (outcome, fs1))
    (Hfailed : forall code, outcome = Ok code -> code <> 0) :
  process_pdf env fs = Some (snd (save_overall_timing env fs1)).
Proof.
  rewrite (process_pdf_stable env fs Hgate Hinput). do 2 f_equal.
  unfold try_except, convert_and_extract. unfold bind at 1. rewrite Hconvert.
  destruct outcome as [code|e]; [|reflexivity].
  specialize (Hfailed code eq_refl).
  destruct (code =? 124); [reflexivity|].
  destruct (code =? 0) eqn:Hz; [apply Z.eqb_eq in Hz; contradiction|].
  reflexivity.
Qed.

Lemma conversion_failure_ends_run_witness :
  process_pdf (example_env stable_samples timed_out_conversion) input_only_dir
  = Some (snd (save_overall_timing
                 (example_env stable_samples timed_out_conversion) input_only_dir)).
Proof.
  apply (conversion_failure_ends_run
           (example_env stable_samples timed_out_conversion)
           input_only_dir input_only_dir (Ok 124)).
  - reflexivity.
  - vm_compute. eauto.
  - reflexivity.
  - intros code [= <-]. discriminate.
Defined.

(** X16. When the conversion succeeds but leaves no [output-*.jpg] entry,
    the run ends after the listing: nothing is encoded or recognised and
    only the overall timing file is written. *)
Theorem no_page_images_ends_run (env : Env) (fs fs1 : directory)
    (Hgate : is_file_stable (samples env) default_stable_period = Some (Ok true))
    (Hinput : is_Some (fs !! input_file))
    (Hconvert : convert env fs = (Ok 0, fs1))
    (Hnone : forall f n, fs1 !! f = Some n -> is_output (lit ".jpg") f = false) :
  process_pdf env fs = Some (snd (save_overall_timing env fs1)).
Proof.
  rewrite (process_pdf_stable env fs Hgate Hinput). do 2 f_equal.
  unfold try_except, convert_and_extract. unfold bind at 1. rewrite Hconvert.
  cbn [Z.eqb negb]. unfold bind at 1.
  now rewrite (list_outputs_none _ _ Hnone).
Qed.

Lemma no_page_images_ends_run_witness :
  process_pdf (example_env stable_samples no_conversion) input_only_dir
  = Some (snd (save_overall_timing
                 (example_env stable_samples no_conversion) input_only_dir)).
Proof.
  apply (no_page_images_ends_run (example_env stable_samples no_conversion)
           input_only_dir input_only_dir).
  - reflexivity.
  - vm_compute. eauto.
  - reflexivity.
  - intros f n Hf.
    destruct (decide (f = lit "input.pdf")) as [->|Hne]; [reflexivity|].
    unfold input_only_dir in Hf.
    rewrite lookup_insert_ne in Hf by congruence. now rewrite lookup_empty in Hf.
Defined.

(** X17. When the stability check raises (an [OSError] other than
    [FileNotFoundError]), or returns [True] for a file that is gone when
    its size is read again, the exception is caught by the outer handler:
    the conversion is not started and the run only writes the overall
    timing file. *)
Theorem unreadable_input_skips_conversion (env : Env) (fs : directory)
    (Hgate :
       (exists e, is_file_stable (samples env) default_stable_period
                  = Some (Raise e))
       \/ (is_file_stable (samples env) default_stable_period = Some (Ok true)
           /\ fs !! input_file = None)) :
  process_pdf env fs = Some (snd (save_overall_timing env fs)).
Proof.
  unfold process_pdf.
  destruct Hgate as [[e Hgate]|[Hgate Hin]]; rewrite Hgate; [reflexivity|].
  f_equal. unfold process_after_gate, pipeline.
  unfold bind at 1. unfold try_except at 1. unfold bind at 1. unfold lift.
  cbn [negb]. unfold bind at 1. unfold getsize at 1. now rewrite Hin.
Qed.

Lemma unreadable_input_skips_conversion_witness :
  process_pdf two_page_env ∅ = Some (snd (save_overall_timing two_page_env ∅)).
Proof.
  apply unreadable_input_skips_conversion. right. split; reflexivity.
Defined.

Lemma process_after_gate_finally (env : Env) (gate : result bool)
    (fs : directory) :
  exists fs_mid, process_after_gate env gate fs = save_overall_timing env fs_mid.
Proof.
  unfold process_after_gate, bind, try_except.
  destruct (pipeline env gate fs) as [[[]|e] fs0]; eexists; reflexivity.
Qed.

(** X18. Every run that leaves the stability check ends in the [finally]
    block: afterwards [processing_timing.json] holds the start and end
    readings of the clock, their difference, the path of the input and the
    size of the input file as it is then ([None] when it is absent),
    unless a directory has that name. *)
Theorem finished_run_leaves_timing (env : Env) (fs fs' : directory)
    (Hrun : process_pdf env fs = Some fs') :
  fs' !! processing_timing_json = Some Dir
  \/ exists t : processing_timing,
       fs' !! processing_timing_json = Some (File (ProcessingTimingJson t))
       /\ prt_start_time t = clock env at_start_time
       /\ prt_end_time t = clock env at_end_time
       /\ prt_total_duration_seconds t
          = (clock env at_end_time - clock env at_start_time)%Q
       /\ prt_pdf_path t = input_path
       /\ prt_pdf_size_bytes t = st_size env <$> fs' !! input_file.
Proof.
  unfold process_pdf in Hrun.
  destruct (is_file_stable (samples env) default_stable_period) as [gate|];
    [|discriminate].
  injection Hrun as <-.
  destruct (process_after_gate_finally env gate fs) as [fs_mid ->].
  rewrite (save_overall_timing_frame env fs_mid input_file)
    by (intros H; symmetry in H; now apply timing_name_not_input in H).
  rewrite save_overall_timing_spec.
  destruct (fs_mid !! processing_timing_json) as [[c|]|] eqn:Hl.
  - right. eexists. split; [apply lookup_insert_eq|]. repeat split.
  - left. exact Hl.
  - right. eexists. split; [apply lookup_insert_eq|]. repeat split.
Qed.

Lemma finished_run_leaves_timing_witness :
  snd (save_overall_timing two_page_env ∅) !! processing_timing_json = Some Dir
  \/ exists t : processing_timing,
       snd (save_overall_timing two_page_env ∅) !! processing_timing_json
       = Some (File (ProcessingTimingJson t))
       /\ prt_start_time t = clock two_page_env at_start_time
       /\ prt_end_time t = clock two_page_env at_end_time
       /\ prt_total_duration_seconds t
          = (clock two_page_env at_end_time - clock two_page_env at_start_time)%Q
       /\ prt_pdf_path t = input_path
       /\ prt_pdf_size_bytes t
          = st_size two_page_env
              <$> snd (save_overall_timing two_page_env ∅) !! input_file.
Proof.
  apply (finished_run_leaves_timing two_page_env ∅). reflexivity.
Defined.

Lemma open_w_cases (name : pystr) (fs : directory) :
  open_w name fs = (Raise IsADirectoryError, fs)
  \/ open_w name fs = (Ok tt, <[name := File (Text [])]> fs).
Proof.
  unfold open_w. destruct (fs !! name) as [[c|]|]; auto.
Qed.

Lemma write_file_frame (name other : pystr) (c : content) (fs : directory) :
  other <> name -> snd (write_file name c fs) !! other = fs !! other.
Proof.
  intros Hne. unfold write_file, bind, dump.
  destruct (open_w_cases name fs) as [-> | ->]; simpl; [reflexivity|].
  now rewrite !lookup_insert_ne by congruence.
Qed.

(** [extract_text_from_b64_images] writes under its three names only. *)
Lemma extract_frame (env : Env) (fs : directory) (name : pystr) :
  name <> extraction_timing_json ->
  name <> extracted_text_txt ->
  name <> extracted_structured_text_json ->
  snd (extract_text_from_b64_images env fs) !! name = fs !! name.
Proof.
  intros H1 H2 H3. unfold extract_text_from_b64_images.
  unfold bind at 1. unfold list_outputs, bind at 1, listdir, ret at 1.
  destruct (sorted _) as [|f0 fl]; [reflexivity|].
  unfold bind at 1, lift. destruct (make_client env) as [[]|e]; [|reflexivity].
  unfold bind at 1.
  pose proof (pages_loop_keeps env (f0 :: fl) accs_init fs) as Hk.
  destruct (pages_loop env (f0 :: fl) accs_init fs) as [[acc|e] fs0];
    simpl in Hk; subst fs0; [|reflexivity].
  unfold bind at 1.
  destruct (open_w_cases extraction_timing_json fs) as [-> | ->]; [reflexivity|].
  unfold bind at 1, dump at 1. unfold bind at 1.
  match goal with
  | |- context [write_file extracted_text_txt ?c ?d] =>
      pose proof (write_file_frame extracted_text_txt name c d H2) as Hw;
      destruct (write_file extracted_text_txt c d) as [[[]|e] fs2]
  end; simpl in Hw.
  - rewrite write_file_frame by assumption. rewrite Hw.
    now rewrite !lookup_insert_ne by congruence.
  - simpl. rewrite Hw. now rewrite !lookup_insert_ne by congruence.
Qed.

Lemma bind_eq {A B} (m : M A) (k : A -> M B) (fs : directory) :
  bind m k fs =
    match m fs with
    | (Ok a, fs') => k a fs'
    | (Raise e, fs') => (Raise e, fs')
    end.
Proof. reflexivity. Qed.

Lemma try_except_eq {A} (m : M A) (handler : exn -> M A) (fs : directory) :
  try_except m handler fs =
    match m fs with
    | (Ok a, fs') => (Ok a, fs')
    | (Raise e, fs') => handler e fs'
    end.
Proof. reflexivity. Qed.

Lemma list_outputs_eq (ext : pystr) (fs : directory) :
  list_outputs ext fs
  = (Ok (sorted (List.filter (is_output ext) (map_to_list fs).*1)), fs).
Proof. reflexivity. Qed.

Lemma process_after_gate_eq (env : Env) (gate : result bool) (fs : directory) :
  process_after_gate env gate fs
  = save_overall_timing env
      (snd (try_except (pipeline env gate) (fun _ => ret tt) fs)).
Proof.
  unfold process_after_gate, bind, try_except.
  now destruct (pipeline env gate fs) as [[[]|e] fs0].
Qed.

(** The conversion block writes payloads and the three artifacts of the
    recognition stage; every other entry is as [convert] left it. *)
Lemma convert_and_extract_frame (env : Env) (fs : directory) (name : pystr) :
  startswith name (lit "output-") = false ->
  name <> extraction_timing_json ->
  name <> extracted_text_txt ->
  name <> extracted_structured_text_json ->
  snd (convert_and_extract env fs) !! name = snd (convert env fs) !! name.
Proof.
  intros Hname H2 H3 H4. unfold convert_and_extract. unfold bind at 1.
  destruct (convert env fs) as [[code|e] fs1]; cbn [snd]; [|reflexivity].
  destruct (code =? 124); [reflexivity|].
  destruct (code =? 0); cbn [negb]; [|reflexivity].
  unfold bind at 1. rewrite list_outputs_eq.
  pose proof (list_outputs_is_output (lit ".jpg") fs1 _ eq_refl) as Hjpg.
  cbn [fst list_outputs] in Hjpg.
  destruct (sorted (List.filter (is_output (lit ".jpg")) (map_to_list fs1).*1))
    as [|j0 jl]; [reflexivity|].
  unfold bind at 1.
  pose proof (encode_pages_frame env (j0 :: jl) name
                (not_a_payload_name name (j0 :: jl) Hname Hjpg) fs1) as Henc.
  destruct (encode_pages env (j0 :: jl) fs1) as [[[]|e] fs2]; cbn [snd] in Henc |- *;
    [|exact Henc].
  rewrite extract_frame by assumption. exact Henc.
Qed.

Lemma pipeline_frame (env : Env) (gate : result bool) (fs : directory)
    (name : pystr) :
  startswith name (lit "output-") = false ->
  name <> extraction_timing_json ->
  name <> extracted_text_txt ->
  name <> extracted_structured_text_json ->
  snd (try_except (pipeline env gate) (fun _ => ret tt) fs) !! name = fs !! name
  \/ snd (try_except (pipeline env gate) (fun _ => ret tt) fs) !! name
     = snd (convert env fs) !! name.
Proof.
  intros Hname H2 H3 H4.
  rewrite try_except_eq. unfold pipeline. rewrite bind_eq. unfold lift.
  destruct gate as [[|]|e]; cbn [negb]; [|now left|now left].
  rewrite bind_eq. unfold getsize.
  destruct (fs !! input_file) as [n|]; [|now left].
  right. rewrite <- (convert_and_extract_frame env fs name) by assumption.
  rewrite try_except_eq. unfold ret.
  now destruct (convert_and_extract env fs) as [[[]|e] fs2].
Qed.

(** X19. A run writes under its own names only.  An entry whose name
    does not start with [output-] and is none of the four artifact names
    (the input file, for one) is at the end of the run as the run found
    it, or as the [convert] command left it. *)
Theorem run_touches_only_its_artifacts (env : Env) (fs fs' : directory)
    (name : pystr)
    (Hrun : process_pdf env fs = Some fs')
    (Hname : startswith name (lit "output-") = false)
    (Hartifact : ~ In name artifact_names) :
  fs' !! name = fs !! name \/ fs' !! name = snd (convert env fs) !! name.
Proof.
  assert (H1 : name <> processing_timing_json)
    by (intros ->; apply Hartifact; simpl; tauto).
  assert (H2 : name <> extraction_timing_json)
    by (intros ->; apply Hartifact; simpl; tauto).
  assert (H3 : name <> extracted_text_txt)
    by (intros ->; apply Hartifact; simpl; tauto).
  assert (H4 : name <> extracted_structured_text_json)
    by (intros ->; apply Hartifact; simpl; tauto).
  unfold process_pdf in Hrun.
  destruct (is_file_stable (samples env) default_stable_period) as [gate|];
    [|discriminate].
  injection Hrun as <-.
  rewrite process_after_gate_eq.
  rewrite save_overall_timing_frame by assumption.
  now apply pipeline_frame.
Qed.

Lemma run_touches_only_its_artifacts_witness :
  snd (process_after_gate blocked_payload_env (Ok true) blocked_payload_dir)
    !! input_file = blocked_payload_dir !! input_file
  \/ snd (process_after_gate blocked_payload_env (Ok true) blocked_payload_dir)
       !! input_file
     = snd (convert blocked_payload_env blocked_payload_dir) !! input_file.
Proof.
  apply (run_touches_only_its_artifacts blocked_payload_env blocked_payload_dir).
  - reflexivity.
  - reflexivity.
  - intros [H|[H|[H|[H|[]]]]]; discriminate H.
Defined.

(** X20. A run that gets through the encoding loop is the composition of
    its stages: the directory at its end is what the conversion, the
    encoding of the listed images, the recognition stage and the [finally]
    block make of it in turn, and an exception of the recognition stage
    does not keep the [finally] block from running. *)
Theorem run_composes_the_stages (env : Env) (fs fs1 fs2 : directory)
    (jpg_files : list pystr)
    (Hgate : is_file_stable (samples env) default_stable_period = Some (Ok true))
    (Hinput : is_Some (fs !! input_file))
    (Hconvert : convert env fs = (Ok 0, fs1))
    (Hlisted : fst (list_outputs (lit ".jpg") fs1) = Ok jpg_files)
    (Hpages : jpg_files <> [])
    (Hencoded : encode_pages env jpg_files fs1 = (Ok tt, fs2)) :
  process_pdf env fs =
    Some (snd (save_overall_timing env
                 (snd (extract_text_from_b64_images env fs2)))).
Proof.
  rewrite (process_pdf_stable env fs Hgate Hinput). do 2 f_equal.
  unfold try_except, convert_and_extract. unfold bind at 1. rewrite Hconvert.
  cbn [Z.eqb negb]. unfold bind at 1.
  unfold list_outputs, bind, listdir, ret in Hlisted |- *. cbn [fst] in Hlisted.
  injection Hlisted as Hlisted. rewrite Hlisted.
  destruct jpg_files as [|j0 jl]; [congruence|].
  rewrite Hencoded.
  now destruct (extract_text_from_b64_images env fs2) as [[[]|e] fs3].
Qed.

Lemma run_composes_the_stages_witness :
  process_pdf two_page_env input_only_dir =
    Some (snd (save_overall_timing two_page_env
                 (snd (extract_text_from_b64_images two_page_env
                         (snd (encode_pages two_page_env
                                 [lit "output-0.jpg"; lit "output-1.jpg"]
                                 (snd (two_page_conversion input_only_dir)))))))).
Proof.
  apply (run_composes_the_stages two_page_env input_only_dir
           (snd (two_page_conversion input_only_dir))
           (snd (encode_pages two_page_env
                   [lit "output-0.jpg"; lit "output-1.jpg"]
                   (snd (two_page_conversion input_only_dir))))
           [lit "output-0.jpg"; lit "output-1.jpg"]).
  - reflexivity.
  - vm_compute. eauto.
  - reflexivity.
  - vm_compute. reflexivity.
  - discriminate.
  - vm_compute. reflexivity.
Defined.

(* ===================================================================== *)
(** ** The event handler                                                  *)
(* ===================================================================== *)

(** X21. [on_created] starts a run for a file created at
    [/images/input.pdf] and for nothing else: an event for a directory, or
    for any other entry of [/images] (the page images, payloads and
    artifacts that a run writes among them), leaves the directory as it
    is. *)
Theorem on_created_ignores_other_entries (env : Env) (ev : event)
    (fs : directory) (name : pystr)
    (Hother :
       is_directory ev = true
       \/ (src_path ev = path_join watch_dir name
           /\ startswith name (lit "/") = false
           /\ name <> lit "input.pdf")) :
  on_created env ev fs = Some fs
  /\ on_created env {| is_directory := false; src_path := input_path |} fs
     = process_pdf env fs.
Proof.
  split.
  - unfold on_created.
    destruct Hother as [-> | (Hpath & Hrel & Hne)]; [reflexivity|].
    rewrite bool_decide_eq_false_2; [now rewrite andb_false_r|].
    rewrite Hpath. unfold input_path, path_join. rewrite Hrel.
    change (startswith (lit "input.pdf") (lit "/")) with false.
    change (negb (nonempty watch_dir) || endswith watch_dir (lit "/")) with false.
    cbn iota. intros Heq. apply app_inv_head in Heq. apply app_inv_head in Heq.
    contradiction.
  - unfold on_created. cbn [is_directory src_path negb andb].
    now rewrite bool_decide_eq_true_2.
Qed.

Lemma on_created_ignores_other_entries_witness :
  on_created two_page_env
    {| is_directory := false; src_path := lit "/images/output-0.jpg" |}
    input_only_dir = Some input_only_dir
  /\ on_created two_page_env
       {| is_directory := false; src_path := input_path |} input_only_dir
     = process_pdf two_page_env input_only_dir.
Proof.
  apply (on_created_ignores_other_entries two_page_env _ input_only_dir
           (lit "output-0.jpg")).
  right. split; [reflexivity|]. split; [reflexivity | discriminate].
Defined.

(* ===================================================================== *)
(** ** EncodingStage: the loop as a whole                                 *)
(* ===================================================================== *)

Lemma encode_page_ok (env : Env) (jpg_file : pystr) (fs fs1 : directory) :
  encode_page env jpg_file fs = (Ok tt, fs1) ->
  exists data,
    read_bytes env jpg_file fs = (Ok data, fs)
    /\ fs1 = <[b64_name jpg_file := File (Text (b64encode data))]> fs.
Proof.
  unfold encode_page, jpg_to_base64, bind, ret. intros H.
  pose proof (getsize_keeps env jpg_file fs) as Hg.
  destruct (getsize env jpg_file fs) as [[size|e] fs0]; simpl in Hg; subst fs0;
    [|discriminate].
  pose proof (read_bytes_keeps env jpg_file fs) as Hr.
  destruct (read_bytes env jpg_file fs) as [[data|e] fs0]; simpl in Hr; subst fs0;
    [|discriminate].
  exists data. split; [reflexivity|].
  unfold write_file, bind, dump in H.
  destruct (open_w_cases (b64_name jpg_file) fs) as [Ho|Ho]; rewrite Ho in H;
    [discriminate|].
  injection H as <-. now rewrite insert_insert_eq.
Qed.

Lemma read_bytes_same_entry (env : Env) (name : pystr) (fs fs1 : directory)
    (data : list byte) :
  fs1 !! name = fs !! name ->
  read_bytes env name fs = (Ok data, fs) ->
  read_bytes env name fs1 = (Ok data, fs1).
Proof.
  unfold read_bytes. intros ->.
  destruct (fs !! name) as [[c|]|]; try discriminate.
  destruct c; intros [= H]; now rewrite ?H.
Qed.

Lemma jpg_name_is_no_payload_name (j j' : pystr) :
  is_output (lit ".jpg") j = true ->
  is_output (lit ".jpg") j' = true ->
  j <> b64_name j'.
Proof.
  intros Hj Hj' Heq.
  unfold is_output in Hj. apply andb_prop in Hj as [_ Hj].
  apply endswith_inv in Hj as [s Hs].
  unfold is_output in Hj'. apply andb_prop in Hj' as [_ Hj'].
  apply endswith_inv in Hj' as [s' ->].
  destruct (replace_from_jpg_suffix s' 0 ltac:(lia) (startswith_nil _))
    as [pre Hpre].
  unfold b64_name, replace in Heq. rewrite Hpre, Hs in Heq.
  apply (f_equal (@rev N)) in Heq. rewrite !rev_app_distr in Heq.
  discriminate Heq.
Qed.

(** X22. After an encoding loop that ended normally, every listed page
    image has its payload: reading the payload file back in text mode and
    decoding it gives the bytes of the image, provided no two images share
    a payload name. *)
Theorem encoded_pages_decode (env : Env) (jpg_files : list pystr)
    (fs fs' : directory)
    (Hlisted : forall j, In j jpg_files -> is_output (lit ".jpg") j = true)
    (Hdistinct : NoDup (List.map b64_name jpg_files))
    (Hrun : encode_pages env jpg_files fs = (Ok tt, fs')) :
  forall j data,
    In j jpg_files ->
    read_bytes env j fs = (Ok data, fs) ->
    exists b64_content,
      read_text env (b64_name j) fs' = (Ok b64_content, fs')
      /\ b64decode b64_content = Ok data.
Proof.
  revert fs Hrun. induction jpg_files as [|j0 l IH]; intros fs Hrun j data Hj Hread;
    [destruct Hj|].
  simpl in Hrun. unfold bind in Hrun.
  destruct (encode_page env j0 fs) as [[[]|e] fs1] eqn:H0; [|discriminate].
  apply encode_page_ok in H0 as (data0 & Hread0 & ->).
  simpl in Hdistinct. apply NoDup_cons in Hdistinct as [Hfresh Hdistinct].
  destruct (decide (b64_name j ∈ List.map b64_name l)) as [Hin|Hnot].
  - apply list_elem_of_In, in_map_iff in Hin. destruct Hin as (j' & Heq & Hj').
    rewrite <- Heq.
    assert (Hj_l : In j l).
    { destruct Hj as [<-|Hj]; [|exact Hj].
      exfalso. apply Hfresh. rewrite <- Heq.
      apply list_elem_of_In, in_map. exact Hj'. }
    rewrite Heq.
    apply (IH (fun j Hj => Hlisted j (or_intror Hj)) Hdistinct _ Hrun j data Hj_l).
    apply (read_bytes_same_entry env j fs); [|exact Hread].
    apply lookup_insert_ne. intros Hc. symmetry in Hc. revert Hc.
    apply jpg_name_is_no_payload_name; apply Hlisted; [now right | now left].
  - destruct Hj as [<-|Hj].
    + rewrite Hread in Hread0. injection Hread0 as <-.
      exists (b64encode data). split.
      * pose proof (encode_pages_frame env l _ Hnot
                      (<[b64_name j0 := File (Text (b64encode data))]> fs)) as Hfr.
        rewrite Hrun in Hfr. cbn [snd] in Hfr.
        unfold read_text. rewrite Hfr. now rewrite lookup_insert_eq.
      * unfold b64decode. rewrite b64encode_ascii. apply a2b_b64encode.
    + exfalso. apply Hnot. apply list_elem_of_In, in_map. exact Hj.
Qed.

Lemma encoded_pages_decode_witness :
  exists b64_content,
    read_text two_page_env (b64_name (lit "output-1.jpg"))
      (snd (encode_pages two_page_env [lit "output-0.jpg"; lit "output-1.jpg"]
              (snd (two_page_conversion input_only_dir))))
    = (Ok b64_content,
       snd (encode_pages two_page_env [lit "output-0.jpg"; lit "output-1.jpg"]
              (snd (two_page_conversion input_only_dir))))
    /\ b64decode b64_content = Ok (bytes_of "second").
Proof.
  apply (encoded_pages_decode two_page_env
           [lit "output-0.jpg"; lit "output-1.jpg"]
           (snd (two_page_conversion input_only_dir))).
  - intros j [<-|[<-|[]]]; reflexivity.
  - apply NoDup_cons. split; [|apply NoDup_singleton].
    intros Hin. apply list_elem_of_In in Hin. destruct Hin as [Hin|[]].
    discriminate Hin.
  - vm_compute. reflexivity.
  - right. now left.
  - vm_compute. reflexivity.
Defined.

(* ===================================================================== *)
(** ** DocumentAggregator: the three artifacts agree                      *)
(* ===================================================================== *)

(** The three lists of the page loop stay aligned: entry by entry they
    describe the same page, and the files of the timings are a
    subsequence of the payload files. *)
Lemma pages_loop_aligned (env : Env) (fs : directory) (b64_files : list pystr) :
  forall acc acc' fs',
    pages_loop env b64_files acc fs = (Ok acc', fs') ->
    List.map full_text (all_structured_data acc) = all_text acc ->
    List.map page_number (all_structured_data acc)
      = List.map pt_page (page_timings acc) ->
    List.map (fun p => length (full_text p)) (all_structured_data acc)
      = List.map pt_text_length (page_timings acc) ->
    List.map full_text (all_structured_data acc') = all_text acc'
    /\ List.map page_number (all_structured_data acc')
       = List.map pt_page (page_timings acc')
    /\ List.map (fun p => length (full_text p)) (all_structured_data acc')
       = List.map pt_text_length (page_timings acc').
Proof.
  induction b64_files as [|f l IH]; intros acc acc' fs' Hrun H1 H2 H3.
  - injection Hrun as <- _. auto.
  - simpl in Hrun. unfold bind in Hrun. rewrite ocr_page_recognise in Hrun.
    destruct (recognise env fs f) as [[n r]|e]; [|discriminate].
    destruct (nonempty (error_message r)).
    + apply (IH _ _ _ Hrun); assumption.
    + apply (IH _ _ _ Hrun); cbn [all_text all_structured_data page_timings];
        rewrite !List.map_app;
        cbn [List.map build_page_data full_text page_number pt_page pt_text_length];
        congruence.
Qed.

Lemma dump_eq (name : pystr) (c : content) (fs : directory) :
  dump name c fs = (Ok tt, <[name := File c]> fs).
Proof. reflexivity. Qed.

Lemma write_file_cases (name : pystr) (c : content) (fs : directory) :
  write_file name c fs = (Raise IsADirectoryError, fs)
  \/ write_file name c fs = (Ok tt, <[name := File c]> fs).
Proof.
  unfold write_file. rewrite bind_eq.
  destruct (open_w_cases name fs) as [-> | ->]; [now left|right].
  rewrite dump_eq. now rewrite insert_insert_eq.
Qed.

(** X23. When [extract_text_from_b64_images] ends normally on a directory
    with payload files, its three artifacts agree with each other: the
    text file is the [full_text] fields of the structured JSON joined by
    blank lines, and the timing file has one entry per entry of the
    structured JSON, in the same order, with the same page number and the
    length of that page's text, and [total_pages] counts them. *)
Theorem artifacts_agree (env : Env) (fs fs' : directory)
    (f0 : pystr) (fl : list pystr)
    (Hlisted : fst (list_outputs (lit ".b64") fs) = Ok (f0 :: fl))
    (Hrun : extract_text_from_b64_images env fs = (Ok tt, fs')) :
  exists (pages : list page_data) (timing : extraction_timing),
    fs' !! extracted_structured_text_json = Some (File (StructuredJson pages))
    /\ fs' !! extracted_text_txt
       = Some (File (Text (join page_separator (List.map full_text pages))))
    /\ fs' !! extraction_timing_json = Some (File (ExtractionTimingJson timing))
    /\ et_total_pages timing = length pages
    /\ List.map pt_page (et_pages timing) = List.map page_number pages
    /\ List.map pt_text_length (et_pages timing)
       = List.map (fun p => length (full_text p)) pages.
Proof.
  destruct artifact_names_distinct as (Hn1 & Hn2 & Hn3 & _).
  rewrite list_outputs_eq in Hlisted. cbn [fst] in Hlisted.
  injection Hlisted as Hlisted.
  unfold extract_text_from_b64_images in Hrun.
  rewrite bind_eq, list_outputs_eq, Hlisted in Hrun. cbn beta iota in Hrun.
  rewrite bind_eq in Hrun. unfold lift in Hrun.
  destruct (make_client env) as [[]|e]; [|discriminate].
  rewrite bind_eq in Hrun.
  pose proof (pages_loop_keeps env (f0 :: fl) accs_init fs) as Hk.
  destruct (pages_loop env (f0 :: fl) accs_init fs) as [[acc|e] fs0] eqn:Hloop;
    cbn [snd] in Hk; subst fs0; [|discriminate].
  destruct (pages_loop_aligned env fs (f0 :: fl) accs_init acc fs Hloop
              eq_refl eq_refl eq_refl) as (Ha1 & Ha2 & Ha3).
  rewrite bind_eq in Hrun.
  destruct (open_w_cases extraction_timing_json fs) as [Ho|Ho]; rewrite Ho in Hrun;
    [discriminate|].
  rewrite bind_eq, dump_eq in Hrun. rewrite insert_insert_eq in Hrun.
  rewrite bind_eq in Hrun.
  match type of Hrun with
  | context [write_file extracted_text_txt ?c ?d] =>
      destruct (write_file_cases extracted_text_txt c d) as [Hw|Hw];
      rewrite Hw in Hrun; [discriminate|]
  end.
  match type of Hrun with
  | context [write_file extracted_structured_text_json ?c ?d] =>
      destruct (write_file_cases extracted_structured_text_json c d) as [Hw2|Hw2];
      rewrite Hw2 in Hrun; [discriminate|]
  end.
  injection Hrun as <-.
  eexists _, _. split; [apply lookup_insert_eq|].
  split; [rewrite lookup_insert_ne by congruence; rewrite lookup_insert_eq;
          now rewrite Ha1|].
  split; [rewrite !lookup_insert_ne by congruence; apply lookup_insert_eq|].
  cbn [et_total_pages et_pages]. repeat split.
  - rewrite <- (List.length_map pt_page), <- Ha2. apply List.length_map.
  - now rewrite Ha2.
  - now rewrite Ha3.
Qed.

Lemma artifacts_agree_witness :
  exists (pages : list page_data) (timing : extraction_timing),
    snd (extract_text_from_b64_images (example_env [] no_conversion) three_payloads)
      !! extracted_structured_text_json = Some (File (StructuredJson pages))
    /\ snd (extract_text_from_b64_images (example_env [] no_conversion) three_payloads)
         !! extracted_text_txt
       = Some (File (Text (join page_separator (List.map full_text pages))))
    /\ snd (extract_text_from_b64_images (example_env [] no_conversion) three_payloads)
         !! extraction_timing_json = Some (File (ExtractionTimingJson timing))
    /\ et_total_pages timing = length pages
    /\ List.map pt_page (et_pages timing) = List.map page_number pages
    /\ List.map pt_text_length (et_pages timing)
       = List.map (fun p => length (full_text p)) pages.
Proof.
  apply (artifacts_agree (example_env [] no_conversion) three_payloads _
           (lit "output-1.b64") [lit "output-2.b64"; lit "output-3.b64"]).
  - vm_compute. reflexivity.
  - vm_compute. reflexivity.
Defined.
